(** * Suna mobile client: the session and connection manager

  A shallow embedding of [SunaContext.tsx] (the provider with input
  validation and abort controllers) and of the send button of
  [ChatScreen.tsx], with the properties of the client specification
  stated over it.

  - JavaScript strings are sequences of UTF-16 code units ([jsstring]);
    [length] is therefore JavaScript's [.length].
  - The provider's [useState] cells form the record [Store].  A closure
    created by a render reads the values of that render (its first
    argument [r]) and writes through the setters, which act on the live
    store.
  - Asynchronous code lives in the monad [Prog]: a tree of the effects
    the closure performs (setters, alerts, [fetch]), where every [fetch]
    is answered by the environment. *)

From Stdlib Require Import List NArith ZArith Bool String Ascii DecimalString Lia.
From ExtLib Require Import Structures.Monad Structures.MonadExc.
Import ListNotations.
Import MonadNotation.
Local Open Scope monad_scope.
Local Open Scope bool_scope.

(* ===================================================================== *)
(** ** JavaScript strings *)
(* ===================================================================== *)

Module Js.

(** A string is its list of UTF-16 code units. *)
Definition jsstring := list N.

Definition code (c : ascii) : N := N_of_ascii c.

(** An ASCII literal of the source. *)
Definition lit (s : string) : jsstring := map code (list_ascii_of_string s).

Fixpoint eqb (a b : jsstring) : bool :=
  match a, b with
  | [], [] => true
  | x :: a', y :: b' => (x =? y)%N && eqb a' b'
  | _, _ => false
  end.

(** [!s] on a string: only the empty string is falsy. *)
Definition falsy (s : jsstring) : bool :=
  match s with [] => true | _ :: _ => false end.

Definition inRange (lo hi c : N) : bool := ((lo <=? c) && (c <=? hi))%N.

(** [s.replace(/[^...]/g, '')]: the regular expression has no [u] flag,
    so it visits code units one by one and deletes each one outside the
    class. *)
Definition removeOutside (class : N -> bool) (s : jsstring) : jsstring :=
  filter class s.

(** WhiteSpace and LineTerminator of ECMAScript, all of them in the
    basic plane: TAB LF VT FF CR SP NBSP, U+1680, U+2000..U+200A, LS, PS,
    U+202F, U+205F, U+3000 and the byte order mark. *)
Definition isSpace (c : N) : bool :=
  inRange 9 13 c || (c =? 32)%N || (c =? 160)%N || (c =? 5760)%N
  || inRange 8192 8202 c || (c =? 8232)%N || (c =? 8233)%N
  || (c =? 8239)%N || (c =? 8287)%N || (c =? 12288)%N || (c =? 65279)%N.

Fixpoint trimStart (s : jsstring) : jsstring :=
  match s with
  | [] => []
  | c :: s' => if isSpace c then trimStart s' else s
  end.

Fixpoint trimEnd (s : jsstring) : jsstring :=
  match s with
  | [] => []
  | c :: s' =>
      match trimEnd s' with
      | [] => if isSpace c then [] else [c]
      | t => c :: t
      end
  end.

(** [s.trim()] *)
Definition trim (s : jsstring) : jsstring := trimEnd (trimStart s).

(** [s.length] *)
Definition len (s : jsstring) : N := N.of_nat (List.length s).

End Js.

Import Js.

Notation "'js' s" := (lit s%string) (at level 9, s at level 0, only parsing).

(* ===================================================================== *)
(** ** Configuration and [getBaseUrl] *)
(* ===================================================================== *)

Record SunaConfig := mkConfig {
serverUrl : jsstring;
mobilePort : jsstring;
autoConnect : bool
}.

Definition defaultConfig : SunaConfig :=
mkConfig (js "192.168.1.100") (js "5000") true.

(** The class [[a-zA-Z0-9.-]]. *)
Definition isHostChar (c : N) : bool :=
inRange (code "a") (code "z") c || inRange (code "A") (code "Z") c
|| inRange (code "0") (code "9") c || (c =? code ".")%N || (c =? code "-")%N.

(** The class [[0-9]]. *)
Definition isPortChar (c : N) : bool := inRange (code "0") (code "9") c.

(** [config.serverUrl.replace(/[^a-zA-Z0-9.-]/g, '')] *)
Definition cleanHost (host : jsstring) : jsstring := removeOutside isHostChar host.

(** [config.mobilePort.replace(/[^0-9]/g, '')] *)
Definition cleanPortOf (port : jsstring) : jsstring := removeOutside isPortChar port.

(** A JavaScript exception value: the code only ever reads [error.name]. *)
Record JsError := mkError {
ename : jsstring;
emessage : jsstring
}.

Definition Error (m : jsstring) : JsError := mkError (js "Error") m.
Definition TypeError (m : jsstring) : JsError := mkError (js "TypeError") m.

Definition getBaseUrl (config : SunaConfig) : JsError + jsstring :=
let cleanServerUrl := cleanHost (serverUrl config) in
let cleanPort := cleanPortOf (mobilePort config) in
if falsy cleanServerUrl || falsy cleanPort
then inl (Error (js "Invalid server configuration"))
else inr (js "http://" ++ cleanServerUrl ++ js ":" ++ cleanPort).

(* ===================================================================== *)
(** ** Values read from response bodies *)
(* ===================================================================== *)

(** What [response.json()] can yield, and [undefined] for a property that
    is not there.  Numbers are kept as integers: the client only tests
    them for truthiness and uses them as array lengths. *)
#[warnings="-register-all"]
Inductive JsVal :=
| VUndefined
| VNull
| VBool (b : bool)
| VNum (n : Z)
| VStr (s : jsstring)
| VArr (items : list JsVal)
| VObj (fields : list (jsstring * JsVal)).

(** Truthiness, as used by [!v], [v && ...] and [v || ...]. *)
Definition truthy (v : JsVal) : bool :=
  match v with
  | VUndefined | VNull => false
  | VBool b => b
  | VNum n => negb (n =? 0)%Z
  | VStr s => negb (falsy s)
  | VArr _ | VObj _ => true
  end.

(** [v === 'literal'] *)
Definition strictEq (v : JsVal) (s : jsstring) : bool :=
  match v with
  | VStr t => eqb t s
  | _ => false
  end.

(** An own property of a parsed object; of two entries with one key the
    later one wins, as in [JSON.parse]. *)
Fixpoint lookup (fields : list (jsstring * JsVal)) (k : jsstring) : option JsVal :=
  match fields with
  | [] => None
  | (k', v) :: rest =>
      match lookup rest k with
      | Some later => Some later
      | None => if eqb k' k then Some v else None
      end
  end.

Definition ownProperty (fields : list (jsstring * JsVal)) (k : jsstring) : JsVal :=
  match lookup fields k with
  | Some v => v
  | None => VUndefined
  end.

(** [v.k] for the data properties the client reads ([status], [chat_id],
    [error], [messages], [role], [content]): reading from [null] or
    [undefined] throws, an object yields its entry, and strings, numbers,
    booleans and arrays have no such property. *)
Definition get (v : JsVal) (k : jsstring) : JsError + JsVal :=
  match v with
  | VUndefined | VNull =>
      inl (TypeError (js "Cannot read property of undefined or null"))
  | VObj fields => inr (ownProperty fields k)
  | VBool _ | VNum _ | VStr _ | VArr _ => inr VUndefined
  end.

Definition decimal (n : Z) : jsstring :=
  lit (DecimalString.NilZero.string_of_int (Z.to_int n)).

(** The property key of [v.length - 1] when [length] was read from an
    object.  A string or array under [length], which JavaScript would
    convert to a number first, is not converted here and counts as NaN. *)
Definition indexBefore (length : JsVal) : jsstring :=
  match length with
  | VNum n => decimal (n - 1)
  | VNull | VBool false => js "-1"
  | VBool true => js "0"
  | VUndefined | VStr _ | VArr _ | VObj _ => js "NaN"
  end.

(** [v?.[v.length - 1]] *)
Definition lastEntry (v : JsVal) : JsVal :=
  match v with
  | VUndefined | VNull => VUndefined
  | VArr items => last items VUndefined
  | VStr s =>
      match s with
      | [] => VUndefined
      | _ :: _ => VStr [last s 0%N]
      end
  | VBool _ | VNum _ => VUndefined
  | VObj fields =>
      ownProperty fields (indexBefore (ownProperty fields (js "length")))
  end.

(* ===================================================================== *)
(** ** The provider's state *)
(* ===================================================================== *)

Inductive Role := user | assistant | system | error.

(** [content] is typed [string] in the source, but what the server sends
    is appended unchecked, so it is kept as a value. *)
Record Message := mkMessage {
  id : jsstring;
  role : Role;
  content : JsVal;
  timestamp : jsstring
}.

(** The [useState] cells of [SunaProvider]. *)
Record Store := mkStore {
  config : SunaConfig;
  isConnected : bool;
  connectionStatus : jsstring;
  messages : list Message;
  currentChatId : JsVal;
  isLoading : bool
}.

Definition initialStore : Store :=
  mkStore defaultConfig false (js "Checking...") [] VNull false.

(** [addMessage] has no [return]: what the caller binds to [loadingId] is
    [undefined], here the value of type [unit], and calling a method on it
    throws. *)
Definition toString (loadingId : unit) : JsError + jsstring :=
  inl (TypeError (js "Cannot read property 'toString' of undefined")).

(** The functions handed to [setMessages]. *)
Inductive Updater :=
| Append (message : Message)      (* prev => [...prev, message] *)
| DropLoading (loadingId : unit). (* prev => prev.filter(msg => msg.id !== loadingId.toString()) *)

Fixpoint filterE (keep : Message -> JsError + bool) (l : list Message)
  : JsError + list Message :=
  match l with
  | [] => inr []
  | m :: l' =>
      match keep m with
      | inl e => inl e
      | inr b =>
          match filterE keep l' with
          | inl e => inl e
          | inr t => inr (if b then m :: t else t)
          end
      end
  end.

Definition applyUpdater (u : Updater) (prev : list Message)
  : JsError + list Message :=
  match u with
  | Append message => inr (prev ++ [message])
  | DropLoading loadingId =>
      filterE (fun msg =>
                 match toString loadingId with
                 | inl e => inl e
                 | inr s => inr (negb (eqb (id msg) s))
                 end) prev
  end.

(** Effects that need no answer. *)
Inductive Action :=
| SetIsConnected (b : bool)
| SetConnectionStatus (s : jsstring)
| SetMessages (l : list Message)
| UpdateMessages (u : Updater)
| SetCurrentChatId (v : JsVal)
| SetIsLoading (b : bool)
| SetInputText (s : jsstring)            (* local state of ChatScreen *)
| Alert (title text : jsstring)          (* Alert.alert *)
| ConsoleError (label : jsstring) (e : option JsError)
| SetTimeout (ms : N).                   (* the callback runs after this delay *)

Inductive Method := GET | POST.

(** The path appended to the base URL; the chat paths carry the value
    interpolated for the chat id. *)
Inductive Path :=
| ApiHealth                        (* /api/health *)
| ApiSunaHealth                    (* /api/suna/health *)
| ApiChatNew                       (* /api/chat/new *)
| ApiChatSend (chatId : JsVal)     (* /api/chat/${currentChatId}/send *)
| ApiChatMessages (chatId : JsVal). (* /api/chat/${currentChatId}/messages *)

(** One [fetch] call: [abortAfter] is the delay of the abort timer set
    just before it, [body] the object given to [JSON.stringify]. *)
Record Request := mkRequest {
  base : jsstring;
  path : Path;
  method : Method;
  abortAfter : N;
  body : option JsVal
}.

(** A response: [ok], and what [await response.json()] gives. *)
Record Response := mkResponse {
  ok : bool;
  json : JsError + JsVal
}.

(** [fetch] resolves with a response or rejects: with an [AbortError]
    when the abort timer fired, with another error when the transport
    failed. *)
Inductive FetchOutcome :=
| Resolved (response : Response)
| Rejected (e : JsError).

Definition AbortError : JsError := mkError (js "AbortError") (js "Aborted").

(** What one [addMessage] reads from the clock and the random source:
    [Date.now().toString()], [Math.random().toString(36).substr(2, 9)]
    and [new Date().toISOString()]. *)
Record Clock := mkClock {
  dateNow : jsstring;
  random36 : jsstring;
  isoNow : jsstring
}.

(* ===================================================================== *)
(** ** Asynchronous programs *)
(* ===================================================================== *)

Inductive Prog (A : Type) : Type :=
| Ret (a : A)
| Throw (e : JsError)
| Do (a : Action) (k : Prog A)
| Fetch (req : Request) (k : FetchOutcome -> Prog A)
| Now (k : Clock -> Prog A).

Arguments Ret {A} a.
Arguments Throw {A} e.
Arguments Do {A} a k.
Arguments Fetch {A} req k.
Arguments Now {A} k.

Fixpoint bindProg {A B : Type} (p : Prog A) (f : A -> Prog B) : Prog B :=
  match p with
  | Ret a => f a
  | Throw e => Throw e
  | Do a k => Do a (bindProg k f)
  | Fetch req k => Fetch req (fun o => bindProg (k o) f)
  | Now k => Now (fun c => bindProg (k c) f)
  end.

(** [try { p } catch (error) { h error }] *)
Fixpoint tryCatch {A : Type} (p : Prog A) (h : JsError -> Prog A) : Prog A :=
  match p with
  | Ret a => Ret a
  | Throw e => h e
  | Do a k => Do a (tryCatch k h)
  | Fetch req k => Fetch req (fun o => tryCatch (k o) h)
  | Now k => Now (fun c => tryCatch (k c) h)
  end.

#[global] Instance Monad_Prog : Monad Prog :=
  {| ret := @Ret; bind := @bindProg |}.

#[global] Instance Exc_Prog : MonadExc JsError Prog :=
  {| raise := @Throw; catch := @tryCatch |}.

Definition act (a : Action) : Prog unit := Do a (Ret tt).

(** A synchronous computation that may throw. *)
Definition lift {A : Type} (x : JsError + A) : Prog A :=
  match x with
  | inl e => Throw e
  | inr a => Ret a
  end.

(** [await fetch(...)] *)
Definition fetch (req : Request) : Prog Response :=
  Fetch req (fun o =>
               match o with
               | Resolved response => Ret response
               | Rejected e => Throw e
               end).

(* ===================================================================== *)
(** ** Running a program against an environment *)
(* ===================================================================== *)

Inductive Event :=
| Did (a : Action)
| Sent (req : Request).

(** The live state and the environment.  [replies n] answers the [n]-th
    [fetch], [clock n] serves the [n]-th [addMessage].  [fault] is set
    when a function given to [setMessages] threw: React runs it while
    rendering the provider, the render throws, no error boundary encloses
    the provider and React unmounts it, so later setter calls change
    nothing. *)
Record World := mkWorld {
  store : Store;
  inputText : jsstring;
  fault : option JsError;
  replies : nat -> FetchOutcome;
  fetched : nat;
  clock : nat -> Clock;
  stamped : nat
}.

(** The effect of a setter on the provider's cells. *)
Definition applyStore (a : Action) (s : Store) : JsError + Store :=
  match a with
  | SetIsConnected b =>
      inr (mkStore (config s) b (connectionStatus s) (messages s)
                   (currentChatId s) (isLoading s))
  | SetConnectionStatus t =>
      inr (mkStore (config s) (isConnected s) t (messages s)
                   (currentChatId s) (isLoading s))
  | SetMessages l =>
      inr (mkStore (config s) (isConnected s) (connectionStatus s) l
                   (currentChatId s) (isLoading s))
  | UpdateMessages u =>
      match applyUpdater u (messages s) with
      | inr l =>
          inr (mkStore (config s) (isConnected s) (connectionStatus s) l
                       (currentChatId s) (isLoading s))
      | inl e => inl e
      end
  | SetCurrentChatId v =>
      inr (mkStore (config s) (isConnected s) (connectionStatus s)
                   (messages s) v (isLoading s))
  | SetIsLoading b =>
      inr (mkStore (config s) (isConnected s) (connectionStatus s)
                   (messages s) (currentChatId s) b)
  | SetInputText _ | Alert _ _ | ConsoleError _ _ | SetTimeout _ => inr s
  end.

Definition applyInput (a : Action) (text : jsstring) : jsstring :=
  match a with
  | SetInputText t => t
  | _ => text
  end.

(** A setter call: nothing changes once the provider failed; a function
    that throws makes it fail. *)
Definition perform (a : Action) (w : World) : World :=
  mkWorld
    (match fault w, applyStore a (store w) with
     | None, inr s => s
     | _, _ => store w
     end)
    (match fault w with
     | None => applyInput a (inputText w)
     | Some _ => inputText w
     end)
    (match fault w, applyStore a (store w) with
     | None, inr _ => None
     | None, inl e => Some e
     | Some e, _ => Some e
     end)
    (replies w) (fetched w) (clock w) (stamped w).

Definition answered (w : World) : World :=
  mkWorld (store w) (inputText w) (fault w) (replies w) (S (fetched w))
          (clock w) (stamped w).

Definition ticked (w : World) : World :=
  mkWorld (store w) (inputText w) (fault w) (replies w) (fetched w)
          (clock w) (S (stamped w)).

(** A finished run: what the program returned or threw, the world it
    left and the effects it performed, oldest first. *)
Record Run (A : Type) := mkRun {
  result : JsError + A;
  final : World;
  events : list Event
}.

Arguments mkRun {A} result final events.
Arguments result {A} r.
Arguments final {A} r.
Arguments events {A} r.

Fixpoint run {A : Type} (p : Prog A) (w : World) : Run A :=
  match p with
  | Ret a => mkRun (inr a) w []
  | Throw e => mkRun (inl e) w []
  | Do a k =>
      let o := run k (perform a w) in
      mkRun (result o) (final o) (Did a :: events o)
  | Fetch req k =>
      let o := run (k (replies w (fetched w))) (answered w) in
      mkRun (result o) (final o) (Sent req :: events o)
  | Now k => run (k (clock w (stamped w))) (ticked w)
  end.

(** The requests among some events, in the order they were issued. *)
Fixpoint requests (t : list Event) : list Request :=
  match t with
  | [] => []
  | Sent req :: t' => req :: requests t'
  | Did _ :: t' => requests t'
  end.

(** Does the event write to the message log? *)
Definition writesLog (e : Event) : bool :=
  match e with
  | Did (SetMessages _) | Did (UpdateMessages _) => true
  | _ => false
  end.

(* ===================================================================== *)
(** ** [SunaProvider] *)
(* ===================================================================== *)

Section Provider.

(** The values of the render that created the closures. *)
Variable r : Store.

Definition addMessage (role : Role) (content : JsVal) : Prog unit :=
  Now (fun c =>
         let message :=
           mkMessage (dateNow c ++ random36 c) role content (isoNow c) in
         act (UpdateMessages (Append message))).

Definition checkConnection : Prog unit :=
  catch
    (act (SetConnectionStatus (js "Connecting...")) ;;
     url <- lift (getBaseUrl (config r)) ;;
     response <- fetch (mkRequest url ApiHealth GET 5000 None) ;;
     if ok response then
       act (SetIsConnected true) ;;
       act (SetConnectionStatus (js "Connected")) ;;
       (* Check Suna backend status *)
       url <- lift (getBaseUrl (config r)) ;;
       sunaResponse <- fetch (mkRequest url ApiSunaHealth GET 5000 None) ;;
       sunaData <- lift (json sunaResponse) ;;
       status <- lift (get sunaData (js "status")) ;;
       if strictEq status (js "connected")
       then act (SetConnectionStatus (js "Connected to Suna"))
       else act (SetConnectionStatus (js "Mobile connected, Suna offline"))
     else
       raise (Error (js "Server not responding")))
    (fun e =>
       act (SetIsConnected false) ;;
       act (SetConnectionStatus (js "Disconnected")) ;;
       if eqb (ename e) (js "AbortError")
       then act (ConsoleError (js "Connection check timed out") None)
       else act (ConsoleError (js "Connection check failed:") (Some e))).

Definition newChat : Prog unit :=
  catch
    (url <- lift (getBaseUrl (config r)) ;;
     response <- fetch (mkRequest url ApiChatNew POST 10000 None) ;;
     if ok response then
       data <- lift (json response) ;;
       chat_id <- lift (get data (js "chat_id")) ;;
       act (SetCurrentChatId chat_id) ;;
       act (SetMessages []) ;;
       addMessage system (VStr (js "New conversation started!"))
     else
       raise (Error (js "Failed to start new chat")))
    (fun e =>
       act (ConsoleError (js "New chat failed:") (Some e)) ;;
       act (Alert (js "Error") (js "Failed to start new chat"))).

Definition clearChat : Prog unit :=
  act (SetMessages []) ;;
  addMessage system
    (VStr (js "Chat cleared. Messages are still saved on server.")).

(** The callback given to [setTimeout] once the send was accepted. *)
Definition awaitResponse (loadingId : unit) : Prog unit :=
  catch
    (url <- lift (getBaseUrl (config r)) ;;
     messagesResponse <-
       fetch (mkRequest url (ApiChatMessages (currentChatId r)) GET 10000 None) ;;
     messagesData <- lift (json messagesResponse) ;;
     (* Remove loading message and add response *)
     act (UpdateMessages (DropLoading loadingId)) ;;
     entries <- lift (get messagesData (js "messages")) ;;
     let lastMessage := lastEntry entries in
     isAssistant <-
       (if truthy lastMessage
        then role <- lift (get lastMessage (js "role")) ;;
             ret (strictEq role (js "assistant"))
        else ret false) ;;
     if isAssistant : bool
     then text <- lift (get lastMessage (js "content")) ;;
          addMessage assistant text
     else addMessage assistant (VStr (js "Response received from Suna.")))
    (fun e =>
       if eqb (ename e) (js "AbortError")
       then addMessage error (VStr (js "Response timed out"))
       else addMessage error (VStr (js "Failed to get response"))) ;;
  act (SetIsLoading false).

(** [files || []] *)
Definition filesOrEmpty (files : option (list JsVal)) : JsVal :=
  match files with
  | Some l => VArr l
  | None => VArr []
  end.

(** The part of [sendMessage] from the comment "Add user message" on.
    Its [try] block ends either with the send refused or failed, or with
    the response callback scheduled ([Some loadingId]); the callback then
    runs on its own, outside the [try]. *)
Definition dispatch (message : jsstring) (files : option (list JsVal))
  : Prog unit :=
  (* Add user message *)
  addMessage user (VStr message) ;;
  act (SetIsLoading true) ;;
  scheduled <-
    catch
      (url <- lift (getBaseUrl (config r)) ;;
       response <-
         fetch (mkRequest url (ApiChatSend (currentChatId r)) POST 30000
                  (Some (VObj [(js "message", VStr (trim message));
                               (js "files", filesOrEmpty files)]))) ;;
       if ok response then
         (* Add loading message *)
         loadingId <- addMessage system (VStr (js "Suna is thinking...")) ;;
         ret (Some loadingId)
       else
         errorData <-
           catch (lift (json response))
                 (fun _ => ret (VObj [(js "error", VStr (js "Server error"))])) ;;
         text <- lift (get errorData (js "error")) ;;
         addMessage error
           (if truthy text then text else VStr (js "Failed to send message")) ;;
         act (SetIsLoading false) ;;
         ret None)
      (fun e =>
         act (ConsoleError (js "Send message failed:") (Some e)) ;;
         (if eqb (ename e) (js "AbortError")
          then addMessage error (VStr (js "Request timed out"))
          else addMessage error (VStr (js "Failed to send message"))) ;;
         act (SetIsLoading false) ;;
         ret None) ;;
  match scheduled with
  | Some loadingId => act (SetTimeout 2000) ;; awaitResponse loadingId
  | None => ret tt
  end.

(** [message] is a string, so [typeof message !== 'string'] is false. *)
Definition sendMessage (message : jsstring) (files : option (list JsVal))
  : Prog unit :=
  if negb (isConnected r) then
    act (Alert (js "Error") (js "Not connected to Suna Desktop"))
  else if falsy message || false || (len (trim message) =? 0)%N then
    (* Input validation *)
    act (Alert (js "Error") (js "Message cannot be empty"))
  else if (10000 <? len message)%N then
    act (Alert (js "Error") (js "Message too long (max 10,000 characters)"))
  else
    (if negb (truthy (currentChatId r)) then newChat else ret tt) ;;
    dispatch message files.

(* ===================================================================== *)
(** ** The send button of [ChatScreen] *)
(* ===================================================================== *)

(** The screen reads [isConnected], [isLoading] and [sendMessage] from
    the context value of the same render. *)
Definition handleSend (text : jsstring) : Prog unit :=
  if falsy (trim text) then ret tt
  else if negb (isConnected r) then
    act (Alert (js "Error")
               (js "Not connected to Suna Desktop. Check your settings."))
  else
    let message := trim text in
    act (SetInputText []) ;;
    sendMessage message None.

(** [disabled={!inputText.trim() || isLoading || !isConnected}] *)
Definition sendDisabled (text : jsstring) : bool :=
  falsy (trim text) || isLoading r || negb (isConnected r).

(** A press on the send button: a disabled [TouchableOpacity] does not
    call [onPress]. *)
Definition pressSend (text : jsstring) : Prog unit :=
  if sendDisabled text then ret tt else handleSend text.

End Provider.

(* ===================================================================== *)
(** ** Vocabulary of the statements *)
(* ===================================================================== *)

(** The message passes the input validation of [sendMessage]. *)
Definition accepted (message : jsstring) : bool :=
  negb (falsy message || false || (len (trim message) =? 0)%N)
  && negb (10000 <? len message)%N.

(** The two messages of the input validation. *)
Definition validationText (message : jsstring) : jsstring :=
  if (len (trim message) =? 0)%N
  then js "Message cannot be empty"
  else js "Message too long (max 10,000 characters)".

(** The request for a new session failed: it was rejected (abort timer or
    transport) or answered outside 2xx. *)
Definition refused (o : FetchOutcome) : bool :=
  match o with
  | Rejected _ => true
  | Resolved response => negb (ok response)
  end.

(** The agent-health check throws: its request is rejected, its body does
    not parse, or the parsed body is [null], so that reading [status]
    throws. *)
Definition agentCheckThrows (o : FetchOutcome) : bool :=
  match o with
  | Rejected _ => true
  | Resolved response =>
      match json response with
      | inl _ => true
      | inr data =>
          match get data (js "status") with
          | inl _ => true
          | inr _ => false
          end
      end
  end.

(** The lazy session creation of [sendMessage]. *)
Definition sessionStep (r : Store) : Prog unit :=
  if negb (truthy (currentChatId r)) then newChat r else ret tt.

(** The message that [addMessage('user', message)] builds in world [w]. *)
Definition userEcho (w : World) (message : jsstring) : Message :=
  let c := clock w (stamped w) in
  mkMessage (dateNow c ++ random36 c) user (VStr message) (isoNow c).

(** The placeholder that the dispatch started in world [w] appends once
    its send was accepted: the second message it stamps. *)
Definition placeholderOf (w : World) : Message :=
  let c := clock w (S (stamped w)) in
  mkMessage (dateNow c ++ random36 c) system
            (VStr (js "Suna is thinking...")) (isoNow c).

(** The request of [sendMessage] to the send endpoint. *)
Definition sendRequest (r : Store) (url message : jsstring)
  (files : option (list JsVal)) : Request :=
  mkRequest url (ApiChatSend (currentChatId r)) POST 30000
    (Some (VObj [(js "message", VStr (trim message));
                 (js "files", filesOrEmpty files)])).

(** The render [r] with another value of the busy flag. *)
Definition withLoading (r : Store) (b : bool) : Store :=
  mkStore (config r) (isConnected r) (connectionStatus r) (messages r)
          (currentChatId r) b.

(** The log as the screen shows it. *)
Definition shown (l : list Message) : list (Role * JsVal) :=
  map (fun m => (role m, content m)) l.

(** A program that never replaces the log wholesale: its only writes to
    it are functions of the previous log. *)
Fixpoint appendOnly {A : Type} (p : Prog A) : Prop :=
  match p with
  | Ret _ | Throw _ => True
  | Do a k => (forall l, a <> SetMessages l) /\ appendOnly k
  | Fetch _ k => forall o, appendOnly (k o)
  | Now k => forall c, appendOnly (k c)
  end.

(* ===================================================================== *)
(** ** Scenarios *)
(* ===================================================================== *)

(** An environment that answers the requests with the given outcomes, in
    order, and rejects any further one. *)
Definition scripted (s : Store) (answers : list FetchOutcome) : World :=
  mkWorld s [] None
          (fun n => nth n answers (Rejected (TypeError (js "Network request failed"))))
          0
          (fun n => mkClock (decimal (1700000000000 + Z.of_nat n)) (js "k3j9x0q2a")
                            (js "2024-01-01T00:00:00.000Z"))
          0.

(** An environment in which every request runs into its abort timer. *)
Definition quietWorld (s : Store) : World :=
  mkWorld s [] None (fun _ => Rejected AbortError) 0
          (fun n => mkClock (decimal (Z.of_nat n)) (js "r") (js "t")) 0.

(** A 2xx response with a JSON body. *)
Definition ok200 (data : JsVal) : FetchOutcome :=
  Resolved (mkResponse true (inr data)).

(** The transport fails. *)
Definition networkDown : FetchOutcome :=
  Rejected (TypeError (js "Network request failed")).

(** The send is accepted. *)
Definition sendAccepted : FetchOutcome := ok200 (VObj []).

(** The server's message list, ending with the agent's answer. *)
Definition agentAnswered : FetchOutcome :=
  ok200 (VObj [(js "messages",
                VArr [VObj [(js "role", VStr (js "user"));
                            (js "content", VStr (js "hi"))];
                      VObj [(js "role", VStr (js "assistant"));
                            (js "content", VStr (js "Hello!"))]])]).

(** The configuration of the probe scenarios. *)
Definition lanConfig : SunaConfig := mkConfig (js "10.0.0.5") (js "5000") true.

(** A client that has not probed yet. *)
Definition freshStore : Store :=
  mkStore lanConfig false (js "Checking...") [] VNull false.

(** A connected client with a session, idle. *)
Definition chatStore : Store :=
  mkStore lanConfig true (js "Connected to Suna") [] (VStr (js "c1")) false.

(** The same client while a dispatch is in flight. *)
Definition busyStore : Store :=
  mkStore lanConfig true (js "Connected to Suna") [] (VStr (js "c1")) true.

(** A connected client without a session. *)
Definition noSessionStore : Store :=
  mkStore lanConfig true (js "Connected to Suna") [] VNull false.

(** The 10,001 code unit message of the oversized scenario. *)
Definition oversized : jsstring := repeat (code "a") (N.to_nat 10001).

(* ===================================================================== *)
(** ** The earlier provider *)
(* ===================================================================== *)

Module Draft.

(** [getBaseUrl] of the provider without input validation: the
    configuration is interpolated as it is. *)
Definition getBaseUrl (config : SunaConfig) : jsstring :=
  js "http://" ++ serverUrl config ++ js ":" ++ mobilePort config.

End Draft.

(* ===================================================================== *)
(** ** [StatusScreen] *)
(* ===================================================================== *)

Inductive Status := online | offline | unknown.

Record ServiceStatus := mkService {
  name : jsstring;
  status : Status;
  description : jsstring;
  port : option jsstring
}.

(** The initial value of the [services] cell. *)
Definition initialServices (config : SunaConfig) : list ServiceStatus :=
  [mkService (js "Mobile Interface") unknown
             (js "Mobile web interface for Suna Desktop")
             (Some (mobilePort config));
   mkService (js "Suna Backend") unknown (js "Main Suna AI agent backend")
             (Some (js "8000"));
   mkService (js "Web Interface") unknown (js "Full Suna web application")
             (Some (js "3000"));
   mkService (js "Docker Services") unknown
             (js "Redis, RabbitMQ, and other services") None].

(** [services[i].status = st]: the entry is changed in place; an index
    past the end yields [undefined], and setting a property of it
    throws. *)
Fixpoint setStatus (i : nat) (st : Status) (services : list ServiceStatus)
  : JsError + list ServiceStatus :=
  match services, i with
  | [], _ => inl (TypeError (js "Cannot set property 'status' of undefined"))
  | x :: rest, O =>
      inr (mkService (name x) st (description x) (port x) :: rest)
  | x :: rest, S j =>
      match setStatus j st rest with
      | inl e => inl e
      | inr rest' => inr (x :: rest')
      end
  end.

(** [services[i].status] *)
Definition statusAt (i : nat) (services : list ServiceStatus)
  : JsError + Status :=
  match nth_error services i with
  | Some x => inr (status x)
  | None => inl (TypeError (js "Cannot read property 'status' of undefined"))
  end.

(** The two URLs [checkAllServices] fetches, built from the raw
    configuration. *)
Definition sunaHealthUrl (config : SunaConfig) : jsstring :=
  (js "http://" ++ serverUrl config) ++ js ":" ++ mobilePort config
  ++ js "/api/suna/health".

Definition webInterfaceUrl (config : SunaConfig) : jsstring :=
  (js "http://" ++ serverUrl config) ++ js ":3000".

(** [sunaData.status === 'connected' ? 'online' : 'offline'], after the
    request and the parsing of its body. *)
Definition sunaBackendStatus (suna : FetchOutcome) : JsError + Status :=
  match suna with
  | Rejected e => inl e
  | Resolved sunaResponse =>
      match json sunaResponse with
      | inl e => inl e
      | inr sunaData =>
          match get sunaData (js "status") with
          | inl e => inl e
          | inr v => inr (if strictEq v (js "connected") then online else offline)
          end
      end
  end.

(** [webResponse.ok ? 'online' : 'offline'] *)
Definition webInterfaceStatus (web : FetchOutcome) : JsError + Status :=
  match web with
  | Rejected e => inl e
  | Resolved webResponse => inr (if ok webResponse then online else offline)
  end.

(** [try { services[i].status = (computed) } catch { services[i].status =
    'offline' }]: whatever the block throws, the handler marks the entry
    offline, and what the handler throws escapes. *)
Definition setOrOffline (i : nat) (computed : JsError + Status)
  (services : list ServiceStatus) : JsError + list ServiceStatus :=
  match computed with
  | inr st =>
      match setStatus i st services with
      | inr l => inr l
      | inl _ => setStatus i offline services
      end
  | inl _ => setStatus i offline services
  end.

(** [checkAllServices] of a render with connectivity [isConnected] and
    services [services], given how its two requests end; the result is
    what it hands to [setServices], or the exception it rejects with. *)
Definition checkAllServices (r : Store) (services : list ServiceStatus)
  (suna web : FetchOutcome) : JsError + list ServiceStatus :=
  let updatedServices := services in
  (* Check mobile interface *)
  match setStatus 0 (if isConnected r then online else offline)
                  updatedServices with
  | inl e => inl e
  | inr updatedServices =>
      (* Check Suna backend *)
      match setOrOffline 1 (sunaBackendStatus suna) updatedServices with
      | inl e => inl e
      | inr updatedServices =>
          (* Check web interface *)
          match setOrOffline 2 (webInterfaceStatus web) updatedServices with
          | inl e => inl e
          | inr updatedServices =>
              (* Docker services status is inferred from backend status *)
              match statusAt 1 updatedServices with
              | inl e => inl e
              | inr backend => setStatus 3 backend updatedServices
              end
          end
      end
  end.

(** The chat requests of an event carry the chat id of render [r]. *)
Definition chatAddressed (r : Store) (e : Event) : Prop :=
  match e with
  | Sent req =>
      match path req with
      | ApiChatSend chatId | ApiChatMessages chatId => chatId = currentChatId r
      | ApiHealth | ApiSunaHealth | ApiChatNew => True
      end
  | Did _ => True
  end.

(** The configuration with its host and port cleaned as [getBaseUrl]
    cleans them. *)
Definition sanitized (config : SunaConfig) : SunaConfig :=
  mkConfig (cleanHost (serverUrl config)) (cleanPortOf (mobilePort config))
           (autoConnect config).

(* ===================================================================== *)
(** ** Predicates on programs *)
(* ===================================================================== *)

(** Every effect the program can perform, whatever the environment
    answers, satisfies [P]. *)
Fixpoint allEvents {A : Type} (P : Event -> Prop) (p : Prog A) : Prop :=
  match p with
  | Ret _ | Throw _ => True
  | Do a k => P (Did a) /\ allEvents P k
  | Fetch req k => P (Sent req) /\ forall o, allEvents P (k o)
  | Now k => forall c, allEvents P (k c)
  end.

(** No exception can escape the program. *)
Fixpoint safe {A : Type} (p : Prog A) : Prop :=
  match p with
  | Ret _ => True
  | Throw _ => False
  | Do _ k => safe k
  | Fetch _ k => forall o, safe (k o)
  | Now k => forall c, safe (k c)
  end.

(** The setters a probe may call. *)
Definition probeAction (a : Action) : bool :=
  match a with
  | SetIsConnected _ | SetConnectionStatus _ | ConsoleError _ _ => true
  | _ => false
  end.

(** The actions that leave the connectivity cells alone. *)
Definition sessionAction (a : Action) : bool :=
  match a with
  | SetIsConnected _ | SetConnectionStatus _ => false
  | _ => true
  end.

(** The cells a probe must not touch. *)
Definition sessionCells (s : Store) : SunaConfig * list Message * JsVal * bool :=
  (config s, messages s, currentChatId s, isLoading s).

(** The cells only a probe may touch. *)
Definition probeCells (s : Store) : SunaConfig * bool * jsstring :=
  (config s, isConnected s, connectionStatus s).

(** The abort delay the provider attaches to each endpoint. *)
Definition deadline (p : Path) : N :=
  match p with
  | ApiHealth | ApiSunaHealth => 5000
  | ApiChatNew | ApiChatMessages _ => 10000
  | ApiChatSend _ => 30000
  end.

(** A request as the provider of render [r] issues them: to the
    sanitized base URL of that render and under the abort timer of its
    endpoint. *)
Definition wellAddressed (r : Store) (e : Event) : Prop :=
  match e with
  | Sent req =>
      getBaseUrl (config r) = inr (base req)
      /\ abortAfter req = deadline (path req)
  | Did _ => True
  end.

(** The message [addMessage] builds at the [n]-th stamp after world [w]. *)
Definition stampedMessage (w : World) (n : nat) (ro : Role) (c : JsVal)
  : Message :=
  let k := clock w (n + stamped w) in
  mkMessage (dateNow k ++ random36 k) ro c (isoNow k).

(** The text of the [error] message that [sendMessage] appends when its
    send request is not accepted. *)
Definition sendFailureText (o : FetchOutcome) : JsVal :=
  match o with
  | Rejected e =>
      if eqb (ename e) (js "AbortError")
      then VStr (js "Request timed out")
      else VStr (js "Failed to send message")
  | Resolved response =>
      match json response with
      | inl _ => VStr (js "Server error")
      | inr data =>
          match get data (js "error") with
          | inr text =>
              if truthy text then text else VStr (js "Failed to send message")
          | inl _ => VStr (js "Failed to send message")
          end
      end
  end.

(** The exception, if any, that the fetch of the message list raises
    before the placeholder removal is reached: a rejected request or a body
    that does not parse. *)
Definition fetchFault (o : FetchOutcome) : option JsError :=
  match o with
  | Rejected e => Some e
  | Resolved response =>
      match json response with
      | inl e => Some e
      | inr _ => None
      end
  end.

(* ===================================================================== *)
(** * Properties *)
(* ===================================================================== *)

(** ** Sanitization *)

Section Sanitize.

Variable class : N -> bool.

Lemma removeOutside_all (s : jsstring) :
  forallb class (removeOutside class s) = true.
Proof.
  induction s as [| c s IH]; simpl; [reflexivity |].
  destruct (class c) eqn:Hc; simpl; [rewrite Hc |]; exact IH.
Qed.

Lemma removeOutside_fixed (s : jsstring) :
  forallb class s = true -> removeOutside class s = s.
Proof.
  induction s as [| c s IH]; simpl; [reflexivity |].
  intros H. apply andb_prop in H. destruct H as [Hc Hs].
  rewrite Hc. f_equal. exact (IH Hs).
Qed.

Lemma removeOutside_idem (s : jsstring) :
  removeOutside class (removeOutside class s) = removeOutside class s.
Proof. apply removeOutside_fixed, removeOutside_all. Qed.

End Sanitize.

(** C9. Sanitizing is idempotent: cleaning an already cleaned host, or an
    already cleaned port, changes nothing, for every string. *)
Theorem sanitize_idempotent (host port : jsstring) :
  cleanHost (cleanHost host) = cleanHost host
  /\ cleanPortOf (cleanPortOf port) = cleanPortOf port.
Proof. split; apply removeOutside_idem. Qed.

(** ** Sequencing and handlers *)

Lemma run_bind (A B : Type) (p : Prog A) (f : A -> Prog B) (w : World) :
  run (bindProg p f) w =
  match result (run p w) with
  | inr a =>
      let o := run (f a) (final (run p w)) in
      mkRun (result o) (final o) (events (run p w) ++ events o)
  | inl e => mkRun (inl e) (final (run p w)) (events (run p w))
  end.
Proof.
  revert w.
  induction p as [a | e | a k IH | req k IH | k IH]; intros w; simpl.
  - destruct (run (f a) w); reflexivity.
  - reflexivity.
  - rewrite IH. destruct (run k (perform a w)) as [[e | x] fin ev];
      reflexivity.
  - rewrite IH.
    destruct (run (k (replies w (fetched w))) (answered w)) as [[e | x] fin ev];
      reflexivity.
  - apply IH.
Qed.

Lemma run_tryCatch (A : Type) (p : Prog A) (h : JsError -> Prog A) (w : World) :
  run (tryCatch p h) w =
  match result (run p w) with
  | inr a => run p w
  | inl e =>
      let o := run (h e) (final (run p w)) in
      mkRun (result o) (final o) (events (run p w) ++ events o)
  end.
Proof.
  revert w.
  induction p as [a | e | a k IH | req k IH | k IH]; intros w; simpl.
  - reflexivity.
  - destruct (run (h e) w); reflexivity.
  - rewrite IH. destruct (run k (perform a w)) as [[e | x] fin ev];
      reflexivity.
  - rewrite IH.
    destruct (run (k (replies w (fetched w))) (answered w)) as [[e | x] fin ev];
      reflexivity.
  - apply IH.
Qed.

(** Setters never revive a failed provider, and the provider's cells are
    frozen once it failed. *)
Lemma perform_faulted (a : Action) (w : World) (e : JsError) :
  fault w = Some e ->
  fault (perform a w) = Some e /\ store (perform a w) = store w.
Proof. intros H. unfold perform. simpl. rewrite H. split; reflexivity. Qed.

(** ** Rejected calls *)

(** C10. A call to [sendMessage] from a render in which [isConnected] is
    false returns at once: it issues no request and leaves every cell of
    the provider (log, chat id and busy flag among them) as it was. *)
Theorem sendMessage_not_connected
  (r : Store) (message : jsstring) (files : option (list JsVal)) (w : World) :
  isConnected r = false ->
  let o := run (sendMessage r message files) w in
  result o = inr tt
  /\ requests (events o) = []
  /\ existsb writesLog (events o) = false
  /\ messages (store (final o)) = messages (store w)
  /\ currentChatId (store (final o)) = currentChatId (store w)
  /\ isLoading (store (final o)) = isLoading (store w).
Proof.
  intros Hc. unfold sendMessage. rewrite Hc. simpl.
  destruct (fault w); repeat split; reflexivity.
Qed.

Lemma sendMessage_not_connected_witness :
  let o :=
    run (sendMessage freshStore (js "hello") None) (scripted freshStore []) in
  requests (events o) = [] /\ messages (store (final o)) = [].
Proof.
  intros o.
  destruct (sendMessage_not_connected freshStore (js "hello") None
              (scripted freshStore []) eq_refl) as (_ & Hreq & _ & Hlog & _).
  split; [exact Hreq | exact Hlog].
Defined.

Lemma falsy_trim_empty (message : jsstring) :
  falsy message = true -> (len (trim message) =? 0)%N = true.
Proof. destruct message; [reflexivity | discriminate]. Qed.

(** C5. A call whose argument is empty after trimming, or longer than
    10,000 code units, issues no request and leaves the provider's cells,
    the log among them, unchanged; made from a connected render it ends in
    the validation alert ("cannot be empty", or else "too long"). *)
Theorem sendMessage_invalid_message
  (r : Store) (message : jsstring) (files : option (list JsVal)) (w : World) :
  len (trim message) = 0%N \/ (10000 < len message)%N ->
  let o := run (sendMessage r message files) w in
  result o = inr tt
  /\ requests (events o) = []
  /\ existsb writesLog (events o) = false
  /\ store (final o) = store w
  /\ (isConnected r = true ->
      events o = [Did (Alert (js "Error") (validationText message))]).
Proof.
  intros Hbad. unfold sendMessage, validationText.
  destruct (isConnected r); simpl.
  - destruct (len (trim message) =? 0)%N eqn:Hempty.
    + rewrite !orb_true_r. simpl.
      destruct (fault w); repeat split; reflexivity.
    + destruct Hbad as [Hz | Hlong].
      { rewrite Hz in Hempty. discriminate. }
      destruct (falsy message) eqn:Hf.
      { apply falsy_trim_empty in Hf. rewrite Hf in Hempty. discriminate. }
      apply N.ltb_lt in Hlong. rewrite Hlong. simpl.
      destruct (fault w); repeat split; reflexivity.
  - destruct (fault w); repeat split; try reflexivity; discriminate.
Qed.

Lemma sendMessage_invalid_message_witness :
  let r := mkStore defaultConfig true (js "Connected to Suna") []
                   (VStr (js "c1")) false in
  let o := run (sendMessage r oversized None) (quietWorld r) in
  len oversized = 10001%N
  /\ requests (events o) = []
  /\ store (final o) = r
  /\ events o =
     [Did (Alert (js "Error") (js "Message too long (max 10,000 characters)"))].
Proof.
  intros r o.
  assert (Hlong : (10000 < len oversized)%N) by (vm_compute; reflexivity).
  destruct (sendMessage_invalid_message r oversized None (quietWorld r)
              (or_intror Hlong)) as (_ & Hreq & _ & Hstore & Hev).
  split; [vm_compute; reflexivity |].
  split; [exact Hreq |].
  split; [exact Hstore |].
  exact (Hev eq_refl).
Defined.

(** ** Session creation *)

(** C7. When the request of [newChat] is rejected (timeout or transport
    error) or answered outside 2xx, [newChat] returns with the chat id and
    the log (indeed every cell) as they were, and without any write to the
    log: all it does besides the request is log to the console and alert. *)
Theorem newChat_failure_frame (r : Store) (w : World) :
  refused (replies w (fetched w)) = true ->
  let o := run (newChat r) w in
  result o = inr tt
  /\ store (final o) = store w
  /\ fault (final o) = fault w
  /\ existsb writesLog (events o) = false
  /\ exists e,
      events o =
      map Sent (requests (events o))
      ++ [Did (ConsoleError (js "New chat failed:") (Some e));
          Did (Alert (js "Error") (js "Failed to start new chat"))].
Proof.
  intros Hrefused. unfold newChat. simpl.
  destruct (getBaseUrl (config r)) as [e | url]; simpl.
  - destruct (fault w); repeat split; try reflexivity; exists e; reflexivity.
  - destruct (replies w (fetched w)) as [response | e]; simpl in *.
    + destruct (ok response); [discriminate |]. simpl.
      destruct (fault w); repeat split; try reflexivity;
        eexists; reflexivity.
    + destruct (fault w); repeat split; try reflexivity; exists e; reflexivity.
Qed.

Lemma newChat_failure_frame_witness :
  let r := mkStore defaultConfig true (js "Connected to Suna") [] VNull false in
  let o := run (newChat r) (quietWorld r) in
  store (final o) = r /\ existsb writesLog (events o) = false.
Proof.
  intros r o.
  destruct (newChat_failure_frame r (quietWorld r) eq_refl)
    as (_ & Hstore & _ & Hlog & _).
  split; [exact Hstore | exact Hlog].
Defined.

(** ** Connection probe *)

(** C8. When the configuration is usable, the transport check is answered
    with 2xx and the agent-health body has a readable [status], the probe
    ends connected, with the label "Connected to Suna" if [status] is the
    string "connected" and "Mobile connected, Suna offline" for every other
    value. *)
Theorem checkConnection_agent_status
  (r : Store) (w : World) (url : jsstring)
  (transport agent : Response) (data status : JsVal) :
  fault w = None ->
  getBaseUrl (config r) = inr url ->
  replies w (fetched w) = Resolved transport ->
  ok transport = true ->
  replies w (S (fetched w)) = Resolved agent ->
  json agent = inr data ->
  get data (js "status") = inr status ->
  let o := run (checkConnection r) w in
  isConnected (store (final o)) = true
  /\ connectionStatus (store (final o)) =
     (if strictEq status (js "connected")
      then js "Connected to Suna"
      else js "Mobile connected, Suna offline")
  /\ requests (events o) =
     [mkRequest url ApiHealth GET 5000 None;
      mkRequest url ApiSunaHealth GET 5000 None].
Proof.
  intros Hf Hurl H1 Hok H2 Hjson Hstatus.
  unfold checkConnection. simpl.
  rewrite Hurl. simpl. rewrite H1. simpl. rewrite Hok. simpl.
  rewrite H2. simpl. rewrite Hjson. simpl. rewrite Hstatus. simpl.
  destruct (strictEq status (js "connected")); simpl; rewrite Hf; simpl;
    repeat split; reflexivity.
Qed.

Lemma checkConnection_agent_status_witness :
  let happy :=
    run (checkConnection freshStore)
        (scripted freshStore
           [ok200 (VObj []); ok200 (VObj [(js "status", VStr (js "connected"))])]) in
  let degraded :=
    run (checkConnection freshStore)
        (scripted freshStore
           [ok200 (VObj []); ok200 (VObj [(js "status", VStr (js "starting"))])]) in
  (isConnected (store (final happy)) = true
   /\ connectionStatus (store (final happy)) = js "Connected to Suna")
  /\ (isConnected (store (final degraded)) = true
      /\ connectionStatus (store (final degraded)) =
         js "Mobile connected, Suna offline").
Proof.
  intros happy degraded. split.
  - destruct (checkConnection_agent_status freshStore
                (scripted freshStore
                   [ok200 (VObj []);
                    ok200 (VObj [(js "status", VStr (js "connected"))])])
                (js "http://10.0.0.5:5000")
                (mkResponse true (inr (VObj [])))
                (mkResponse true
                   (inr (VObj [(js "status", VStr (js "connected"))])))
                (VObj [(js "status", VStr (js "connected"))])
                (VStr (js "connected"))
                eq_refl eq_refl eq_refl eq_refl eq_refl eq_refl eq_refl)
      as (Hc & Hs & _).
    split; [exact Hc | exact Hs].
  - destruct (checkConnection_agent_status freshStore
                (scripted freshStore
                   [ok200 (VObj []);
                    ok200 (VObj [(js "status", VStr (js "starting"))])])
                (js "http://10.0.0.5:5000")
                (mkResponse true (inr (VObj [])))
                (mkResponse true
                   (inr (VObj [(js "status", VStr (js "starting"))])))
                (VObj [(js "status", VStr (js "starting"))])
                (VStr (js "starting"))
                eq_refl eq_refl eq_refl eq_refl eq_refl eq_refl eq_refl)
      as (Hc & Hs & _).
    split; [exact Hc | exact Hs].
Defined.

(** C4, as stated, fails: the transport check is answered with 2xx, the
    agent-health request then runs into its abort timer, and the probe
    ends with [isConnected] false and the label "Disconnected". *)
Lemma checkConnection_agent_timeout_disconnects :
  let w := scripted freshStore [ok200 (VObj []); Rejected AbortError] in
  let o := run (checkConnection freshStore) w in
  replies w 0 = ok200 (VObj [])
  /\ replies w 1 = Rejected AbortError
  /\ requests (events o) =
     [mkRequest (js "http://10.0.0.5:5000") ApiHealth GET 5000 None;
      mkRequest (js "http://10.0.0.5:5000") ApiSunaHealth GET 5000 None]
  /\ isConnected (store (final o)) = false
  /\ connectionStatus (store (final o)) = js "Disconnected"
  /\ connectionStatus (store (final o)) <> js "Mobile connected, Suna offline".
Proof.
  vm_compute. repeat split; try reflexivity. discriminate.
Qed.

(** C4, amended.  The agent-health check shares the [try] block of the
    transport check: when the transport check is answered with 2xx and the
    agent-health check throws (rejected request, abort timer, unparsable
    or [null] body), the handler runs and the probe ends with
    [isConnected] false and the label "Disconnected". *)
Theorem checkConnection_agent_fault_disconnects
  (r : Store) (w : World) (url : jsstring) (transport : Response) :
  fault w = None ->
  getBaseUrl (config r) = inr url ->
  replies w (fetched w) = Resolved transport ->
  ok transport = true ->
  agentCheckThrows (replies w (S (fetched w))) = true ->
  let o := run (checkConnection r) w in
  result o = inr tt
  /\ isConnected (store (final o)) = false
  /\ connectionStatus (store (final o)) = js "Disconnected"
  /\ requests (events o) =
     [mkRequest url ApiHealth GET 5000 None;
      mkRequest url ApiSunaHealth GET 5000 None].
Proof.
  intros Hf Hurl H1 Hok Hthrow.
  unfold checkConnection. simpl.
  rewrite Hurl. simpl. rewrite H1. simpl. rewrite Hok. simpl.
  unfold agentCheckThrows in Hthrow.
  destruct (replies w (S (fetched w))) as [agent | e]; simpl.
  - destruct (json agent) as [e | data]; simpl.
    + destruct (eqb (ename e) (js "AbortError")); simpl; rewrite Hf; simpl;
        repeat split; reflexivity.
    + destruct (get data (js "status")) as [e | status]; [| discriminate].
      simpl.
      destruct (eqb (ename e) (js "AbortError")); simpl; rewrite Hf; simpl;
        repeat split; reflexivity.
  - destruct (eqb (ename e) (js "AbortError")); simpl; rewrite Hf; simpl;
      repeat split; reflexivity.
Qed.

Lemma checkConnection_agent_fault_disconnects_witness :
  let o :=
    run (checkConnection freshStore)
        (scripted freshStore [ok200 (VObj []); ok200 VNull]) in
  isConnected (store (final o)) = false
  /\ connectionStatus (store (final o)) = js "Disconnected".
Proof.
  intros o.
  destruct (checkConnection_agent_fault_disconnects freshStore
              (scripted freshStore [ok200 (VObj []); ok200 VNull])
              (js "http://10.0.0.5:5000")
              (mkResponse true (inr (VObj [])))
              eq_refl eq_refl eq_refl eq_refl eq_refl)
    as (_ & Hc & Hs & _).
  split; [exact Hc | exact Hs].
Defined.

(** ** The log during a dispatch *)

Lemma appendOnly_bind (A B : Type) (p : Prog A) (f : A -> Prog B) :
  appendOnly p -> (forall a, appendOnly (f a)) -> appendOnly (bindProg p f).
Proof.
  intros Hp Hf.
  induction p as [a | e | a k IH | req k IH | k IH]; simpl in *.
  - apply Hf.
  - exact I.
  - destruct Hp as [Ha Hk]. split; [exact Ha | exact (IH Hk)].
  - intros o. exact (IH o (Hp o)).
  - intros c. exact (IH c (Hp c)).
Qed.

Lemma appendOnly_tryCatch (A : Type) (p : Prog A) (h : JsError -> Prog A) :
  appendOnly p -> (forall e, appendOnly (h e)) -> appendOnly (tryCatch p h).
Proof.
  intros Hp Hh.
  induction p as [a | e | a k IH | req k IH | k IH]; simpl in *.
  - exact I.
  - apply Hh.
  - destruct Hp as [Ha Hk]. split; [exact Ha | exact (IH Hk)].
  - intros o. exact (IH o (Hp o)).
  - intros c. exact (IH c (Hp c)).
Qed.

Lemma appendOnly_lift (A : Type) (x : JsError + A) : appendOnly (lift x).
Proof. destruct x; exact I. Qed.

Lemma appendOnly_fetch (req : Request) : appendOnly (fetch req).
Proof. intros [response | e]; exact I. Qed.

Lemma appendOnly_addMessage (ro : Role) (c : JsVal) : appendOnly (addMessage ro c).
Proof. intros k. split; [discriminate | exact I]. Qed.

(** The function that should remove the placeholder throws on the first
    message it inspects. *)
Lemma filterE_throws (e : JsError) (l : list Message) :
  filterE (fun _ => inl e) l = match l with [] => inr [] | _ :: _ => inl e end.
Proof. destruct l; reflexivity. Qed.

(** No function given to [setMessages] ever shortens the log. *)
Lemma applyUpdater_extends (u : Updater) (prev next : list Message) :
  applyUpdater u prev = inr next -> exists ext, next = prev ++ ext.
Proof.
  destruct u as [m | loadingId]; simpl.
  - intros H. injection H as <-. exists [m]. reflexivity.
  - rewrite filterE_throws. destruct prev; [| discriminate].
    intros H. injection H as <-. exists []. reflexivity.
Qed.

Lemma perform_extends (a : Action) (w : World) :
  (forall l, a <> SetMessages l) ->
  exists ext, messages (store (perform a w)) = messages (store w) ++ ext.
Proof.
  intros Ha. unfold perform. simpl.
  destruct (fault w); [exists []; symmetry; apply app_nil_r |].
  destruct a; simpl; try (exists []; symmetry; apply app_nil_r).
  - exfalso. exact (Ha l eq_refl).
  - destruct (applyUpdater u (messages (store w))) as [e | next] eqn:Hu; simpl.
    + exists []. symmetry. apply app_nil_r.
    + apply (applyUpdater_extends u). exact Hu.
Qed.

(** During such a program the log only grows at its end: what was in it
    stays, unchanged and in place. *)
Lemma log_grows (A : Type) (p : Prog A) (w : World) :
  appendOnly p ->
  exists ext,
    messages (store (final (run p w))) = messages (store w) ++ ext.
Proof.
  revert w.
  induction p as [a | e | a k IH | req k IH | k IH]; intros w Hp; simpl in *.
  - exists []. symmetry. apply app_nil_r.
  - exists []. symmetry. apply app_nil_r.
  - destruct Hp as [Ha Hk].
    destruct (perform_extends a w Ha) as [e1 H1].
    destruct (IH (perform a w) Hk) as [e2 H2].
    exists (e1 ++ e2). rewrite H2, H1. symmetry. apply app_assoc.
  - exact (IH _ (answered w) (Hp _)).
  - exact (IH _ (ticked w) (Hp _)).
Qed.

(** Walks through a program of the provider, one construct at a time. *)
Ltac log_safe :=
  repeat first
    [ exact I
    | apply appendOnly_lift
    | apply appendOnly_fetch
    | apply appendOnly_addMessage
    | apply appendOnly_bind; [| intro]
    | apply appendOnly_tryCatch; [| intro]
    | split; [discriminate |]
    | match goal with
      | |- appendOnly (if ?b then _ else _) => destruct b
      | |- appendOnly (match ?x with _ => _ end) => destruct x
      end ].

Lemma appendOnly_awaitResponse (r : Store) (loadingId : unit) :
  appendOnly (awaitResponse r loadingId).
Proof. unfold awaitResponse. log_safe. Qed.

Lemma appendOnly_dispatch
  (r : Store) (message : jsstring) (files : option (list JsVal)) :
  appendOnly (dispatch r message files).
Proof.
  unfold dispatch. log_safe.
Qed.

Lemma sendMessage_accepted
  (r : Store) (message : jsstring) (files : option (list JsVal)) :
  isConnected r = true -> accepted message = true ->
  sendMessage r message files =
  bindProg (sessionStep r) (fun _ => dispatch r message files).
Proof.
  intros Hc Ha. unfold sendMessage, accepted in *. rewrite Hc. simpl.
  apply andb_prop in Ha. destruct Ha as [H1 H2].
  apply negb_true_iff in H1. apply negb_true_iff in H2.
  rewrite H1, H2. reflexivity.
Qed.

Lemma newChat_returns (r : Store) (w : World) :
  result (run (newChat r) w) = inr tt
  /\ (fault w = None -> fault (final (run (newChat r) w)) = None).
Proof.
  unfold newChat. simpl.
  destruct (getBaseUrl (config r)) as [e | url]; simpl.
  { split; [reflexivity | intros Hf; rewrite Hf; reflexivity]. }
  destruct (replies w (fetched w)) as [response | e]; simpl.
  2: { split; [reflexivity | intros Hf; rewrite Hf; reflexivity]. }
  destruct (ok response); simpl.
  2: { split; [reflexivity | intros Hf; rewrite Hf; reflexivity]. }
  destruct (json response) as [e | data]; simpl.
  { split; [reflexivity | intros Hf; rewrite Hf; reflexivity]. }
  destruct (get data (js "chat_id")) as [e | chat_id]; simpl.
  { split; [reflexivity | intros Hf; rewrite Hf; reflexivity]. }
  split; [reflexivity | intros Hf; rewrite Hf; reflexivity].
Qed.

Lemma sessionStep_returns (r : Store) (w : World) :
  result (run (sessionStep r) w) = inr tt
  /\ (fault w = None -> fault (final (run (sessionStep r) w)) = None).
Proof.
  unfold sessionStep. destruct (negb (truthy (currentChatId r))).
  - apply newChat_returns.
  - split; [reflexivity | intros Hf; exact Hf].
Qed.

(** [sendMessage], once past its checks, is the session step followed by
    the dispatch, run in the world the session step left. *)
Lemma run_sendMessage_accepted
  (r : Store) (message : jsstring) (files : option (list JsVal)) (w : World) :
  isConnected r = true -> accepted message = true ->
  let s := run (sessionStep r) w in
  let d := run (dispatch r message files) (final s) in
  run (sendMessage r message files) w =
  mkRun (result d) (final d) (events s ++ events d).
Proof.
  intros Hc Ha. rewrite (sendMessage_accepted r message files Hc Ha).
  rewrite run_bind. destruct (sessionStep_returns r w) as [-> _].
  reflexivity.
Qed.

(** The dispatch starts by appending the user's message and raising the
    busy flag; with a usable configuration the send request comes next. *)
Lemma dispatch_starts
  (r : Store) (message : jsstring) (files : option (list JsVal)) (w : World) :
  exists tail,
    events (run (dispatch r message files) w) =
    Did (UpdateMessages (Append (userEcho w message)))
    :: Did (SetIsLoading true) :: tail
    /\ forall url, getBaseUrl (config r) = inr url ->
       exists tail', tail = Sent (sendRequest r url message files) :: tail'.
Proof.
  unfold dispatch. simpl. eexists. split; [reflexivity |].
  intros url Hurl. rewrite Hurl. simpl.
  eexists. reflexivity.
Qed.

(** Whatever the dispatch runs into, the log it leaves is the log it
    found, the user's message, and what was appended after it. *)
Lemma dispatch_keeps_echo
  (r : Store) (message : jsstring) (files : option (list JsVal)) (w : World) :
  fault w = None ->
  exists later,
    messages (store (final (run (dispatch r message files) w))) =
    messages (store w) ++ userEcho w message :: later.
Proof.
  intros Hf.
  pose proof (appendOnly_dispatch r message files) as Hd.
  unfold dispatch in *. simpl in *.
  specialize (Hd (clock w (stamped w))). destruct Hd as [_ [_ Hd]].
  match goal with
  | |- context [run ?k (perform ?b (perform ?a (ticked w)))] =>
      destruct (log_grows _ k (perform b (perform a (ticked w))) Hd)
        as [later Hlater]
  end.
  exists later. rewrite Hlater. simpl. rewrite Hf. simpl.
  rewrite <- app_assoc. reflexivity.
Qed.


(** ** Dispatch *)

(** C6, as stated, fails on "trimmed": the log receives the argument as
    it was passed, here with its leading blank, while the request carries
    the trimmed text. *)
Lemma sendMessage_echo_not_trimmed :
  let o :=
    run (sendMessage chatStore (js " hi") None)
        (scripted chatStore [networkDown]) in
  trim (js " hi") = js "hi"
  /\ shown (messages (store (final o))) =
     [(user, VStr (js " hi")); (error, VStr (js "Failed to send message"))]
  /\ map body (requests (events o)) =
     [Some (VObj [(js "message", VStr (js "hi")); (js "files", VArr [])])].
Proof. vm_compute. repeat split; reflexivity. Qed.

(** C6, amended.  Once past its checks, [sendMessage] appends the user's
    message with the content exactly as passed (only the request body is
    trimmed) right after the session step and before the send request;
    and whatever happens afterwards, the final log still holds that
    message, unchanged and in place, with everything later behind it. *)
Theorem user_echo_durable
  (r : Store) (message : jsstring) (files : option (list JsVal)) (w : World) :
  isConnected r = true ->
  accepted message = true ->
  fault w = None ->
  let s := run (sessionStep r) w in
  let o := run (sendMessage r message files) w in
  let echo := userEcho (final s) message in
  (role echo = user /\ content echo = VStr message)
  /\ (exists tail,
        events o =
        events s
        ++ Did (UpdateMessages (Append echo)) :: Did (SetIsLoading true) :: tail
        /\ forall url, getBaseUrl (config r) = inr url ->
           exists tail', tail = Sent (sendRequest r url message files) :: tail')
  /\ (exists later,
        messages (store (final o)) =
        messages (store (final s)) ++ echo :: later).
Proof.
  intros Hc Ha Hf s o echo. subst o echo.
  rewrite (run_sendMessage_accepted r message files w Hc Ha).
  cbn [events final]. fold s.
  split; [split; reflexivity |]. split.
  - destruct (dispatch_starts r message files (final s)) as (tail & Hev & Hsend).
    exists tail. split; [| exact Hsend]. rewrite Hev. reflexivity.
  - apply dispatch_keeps_echo.
    destruct (sessionStep_returns r w) as [_ Halive]. exact (Halive Hf).
Qed.

Lemma user_echo_durable_witness :
  let o :=
    run (sendMessage chatStore (js " hi") None)
        (scripted chatStore [networkDown]) in
  exists later,
    messages (store (final o)) =
    [] ++ userEcho (scripted chatStore [networkDown]) (js " hi") :: later.
Proof.
  intros o.
  destruct (user_echo_durable chatStore (js " hi") None
              (scripted chatStore [networkDown]) eq_refl eq_refl eq_refl)
    as (_ & _ & Hlog).
  exact Hlog.
Defined.

(** C3, as stated, fails: on a client without a session the request for
    a new one is rejected, and the dispatch goes on all the same: the
    user's message is appended and the send request is issued, addressed
    to the chat id [null] of the calling render. *)
Lemma sendMessage_proceeds_after_failed_newChat :
  let w := scripted noSessionStore [networkDown; networkDown] in
  let n := run (newChat noSessionStore) w in
  let o := run (sendMessage noSessionStore (js "hello") None) w in
  (currentChatId (store (final n)) = VNull /\ messages (store (final n)) = [])
  /\ map path (requests (events o)) = [ApiChatNew; ApiChatSend VNull]
  /\ shown (messages (store (final o))) =
     [(user, VStr (js "hello")); (error, VStr (js "Failed to send message"))].
Proof. vm_compute. repeat split; reflexivity. Qed.

(** C3, amended.  On a client whose chat id is null, [sendMessage], once
    past its checks, first runs [newChat] to its end; then, whether the
    session was created or not, the dispatch runs in the world [newChat]
    left: the user's message is appended and, with a usable
    configuration, the send request is issued for the chat id of the
    calling render. *)
Theorem sendMessage_creates_session_first
  (r : Store) (message : jsstring) (files : option (list JsVal)) (w : World) :
  isConnected r = true ->
  accepted message = true ->
  truthy (currentChatId r) = false ->
  let n := run (newChat r) w in
  let d := run (dispatch r message files) (final n) in
  let o := run (sendMessage r message files) w in
  events o = events n ++ events d
  /\ final o = final d
  /\ (exists tail,
        events d =
        Did (UpdateMessages (Append (userEcho (final n) message)))
        :: Did (SetIsLoading true) :: tail
        /\ forall url, getBaseUrl (config r) = inr url ->
           exists tail', tail = Sent (sendRequest r url message files) :: tail')
  /\ (fault w = None ->
      exists later,
        messages (store (final o)) =
        messages (store (final n)) ++ userEcho (final n) message :: later).
Proof.
  intros Hc Ha Hnull n d o. subst o.
  rewrite (run_sendMessage_accepted r message files w Hc Ha).
  unfold sessionStep. rewrite Hnull. cbn [events final negb].
  split; [reflexivity |]. split; [reflexivity |]. split.
  - apply dispatch_starts.
  - intros Hf. apply dispatch_keeps_echo.
    destruct (newChat_returns r w) as [_ Halive]. exact (Halive Hf).
Qed.

Lemma sendMessage_creates_session_first_witness :
  let w := scripted noSessionStore [networkDown; networkDown] in
  let n := run (newChat noSessionStore) w in
  let d := run (dispatch noSessionStore (js "hello") None) (final n) in
  let o := run (sendMessage noSessionStore (js "hello") None) w in
  events o = events n ++ events d.
Proof.
  intros w n d o.
  destruct (sendMessage_creates_session_first noSessionStore (js "hello") None
              w eq_refl eq_refl eq_refl) as (Hev & _).
  exact Hev.
Defined.

(** C1, as stated, fails: [sendMessage] called while the busy flag is
    true appends the user's message and issues the send request. *)
Lemma sendMessage_while_busy_proceeds :
  let w := scripted busyStore [networkDown] in
  let o := run (sendMessage busyStore (js "again") None) w in
  (isLoading busyStore = true /\ isLoading (store w) = true)
  /\ map path (requests (events o)) = [ApiChatSend (VStr (js "c1"))]
  /\ shown (messages (store (final o))) =
     [(user, VStr (js "again")); (error, VStr (js "Failed to send message"))].
Proof. vm_compute. repeat split; reflexivity. Qed.

(** C1, amended.  The busy flag is enforced by the send button of the
    chat screen, which is disabled while [isLoading] is true: a press in
    such a render does nothing at all (no request, no message, no state
    change).  [sendMessage] itself never reads the flag. *)
Theorem pressSend_while_busy (r : Store) (text : jsstring) (w : World) :
  isLoading r = true ->
  run (pressSend r text) w = mkRun (inr tt) w []
  /\ forall b message files,
       sendMessage (withLoading r b) message files = sendMessage r message files.
Proof.
  intros Hbusy. split.
  - unfold pressSend, sendDisabled. rewrite Hbusy.
    rewrite orb_true_r. reflexivity.
  - intros b message files. reflexivity.
Qed.

Lemma pressSend_while_busy_witness :
  run (pressSend busyStore (js "again")) (scripted busyStore [networkDown]) =
  mkRun (inr tt) (scripted busyStore [networkDown]) [].
Proof.
  destruct (pressSend_while_busy busyStore (js "again")
              (scripted busyStore [networkDown]) eq_refl) as [Hrun _].
  exact Hrun.
Defined.

(** The response callback never takes anything out of the log. *)
Lemma awaitResponse_never_removes (r : Store) (loadingId : unit) (w : World) :
  exists ext,
    messages (store (final (run (awaitResponse r loadingId) w))) =
    messages (store w) ++ ext.
Proof. apply log_grows, appendOnly_awaitResponse. Qed.

(** An accepted send: the dispatch appends the user's message and the
    placeholder, and hands over to the response callback. *)
Lemma run_dispatch_accepted
  (r : Store) (message : jsstring) (files : option (list JsVal)) (w : World)
  (url : jsstring) (response : Response) :
  getBaseUrl (config r) = inr url ->
  replies w (fetched w) = Resolved response ->
  ok response = true ->
  let w1 :=
    perform (SetIsLoading true)
      (perform (UpdateMessages (Append (userEcho w message))) (ticked w)) in
  let w2 :=
    perform (SetTimeout 2000)
      (perform (UpdateMessages (Append (placeholderOf w)))
         (ticked (answered w1))) in
  let o := run (awaitResponse r tt) w2 in
  run (dispatch r message files) w =
  mkRun (result o) (final o)
        ([Did (UpdateMessages (Append (userEcho w message)));
          Did (SetIsLoading true);
          Sent (sendRequest r url message files);
          Did (UpdateMessages (Append (placeholderOf w)));
          Did (SetTimeout 2000)] ++ events o).
Proof.
  intros Hurl Hreply Hok. unfold dispatch.
  remember (awaitResponse r) as callback eqn:Hcallback.
  simpl. rewrite Hurl. simpl. rewrite Hreply. simpl. rewrite Hok. simpl.
  reflexivity.
Qed.

(** C2 does not hold of the code.  Once the send was accepted, the
    placeholder "Suna is thinking..." is still in the final log, right
    behind the user's message, however the fetch of the messages ends:
    the handlers for a timeout and for an error only append their error
    message, and after a successful fetch the removal is attempted with
    an undefined [loadingId], whose filter function throws. *)
Theorem placeholder_never_removed
  (r : Store) (message : jsstring) (files : option (list JsVal)) (w : World)
  (url : jsstring) (response : Response) :
  isConnected r = true ->
  accepted message = true ->
  fault w = None ->
  getBaseUrl (config r) = inr url ->
  let s := run (sessionStep r) w in
  replies (final s) (fetched (final s)) = Resolved response ->
  ok response = true ->
  let o := run (sendMessage r message files) w in
  exists later,
    messages (store (final o)) =
    messages (store (final s))
    ++ userEcho (final s) message :: placeholderOf (final s) :: later.
Proof.
  intros Hc Ha Hf Hurl s Hreply Hok o. subst o.
  rewrite (run_sendMessage_accepted r message files w Hc Ha).
  cbn [final]. fold s.
  rewrite (run_dispatch_accepted r message files (final s) url response
             Hurl Hreply Hok).
  cbn [final].
  match goal with
  | |- context [run (awaitResponse r tt) ?w2] =>
      destruct (awaitResponse_never_removes r tt w2) as [later Hlater]
  end.
  exists later. rewrite Hlater.
  destruct (sessionStep_returns r w) as [_ Halive].
  specialize (Halive Hf). fold s in Halive.
  simpl. rewrite Halive. simpl.
  rewrite <- !app_assoc. reflexivity.
Qed.

Lemma placeholder_never_removed_witness :
  let o :=
    run (sendMessage chatStore (js "hi") None)
        (scripted chatStore [sendAccepted; Rejected AbortError]) in
  exists later,
    messages (store (final o)) =
    [] ++ userEcho (scripted chatStore [sendAccepted; Rejected AbortError]) (js "hi")
       :: placeholderOf (scripted chatStore [sendAccepted; Rejected AbortError])
       :: later.
Proof.
  intros o.
  exact (placeholder_never_removed chatStore (js "hi") None
           (scripted chatStore [sendAccepted; Rejected AbortError])
           (js "http://10.0.0.5:5000") (mkResponse true (inr (VObj [])))
           eq_refl eq_refl eq_refl eq_refl eq_refl eq_refl).
Defined.

(** The three terminal branches of an accepted dispatch, run: after a
    successful fetch the provider has failed with the log as it was; after
    a timeout and after an error the log has gained the error message; the
    placeholder is there each time. *)
Lemma placeholder_in_each_branch :
  let resolved :=
    run (sendMessage chatStore (js "hi") None)
        (scripted chatStore [sendAccepted; agentAnswered]) in
  let timedOut :=
    run (sendMessage chatStore (js "hi") None)
        (scripted chatStore [sendAccepted; Rejected AbortError]) in
  let failed :=
    run (sendMessage chatStore (js "hi") None)
        (scripted chatStore [sendAccepted; networkDown]) in
  (shown (messages (store (final resolved))) =
   [(user, VStr (js "hi")); (system, VStr (js "Suna is thinking..."))]
   /\ fault (final resolved) =
      Some (TypeError (js "Cannot read property 'toString' of undefined")))
  /\ (shown (messages (store (final timedOut))) =
      [(user, VStr (js "hi")); (system, VStr (js "Suna is thinking..."));
       (error, VStr (js "Response timed out"))]
      /\ isLoading (store (final timedOut)) = false)
  /\ (shown (messages (store (final failed))) =
      [(user, VStr (js "hi")); (system, VStr (js "Suna is thinking..."));
       (error, VStr (js "Failed to get response"))]
      /\ isLoading (store (final failed)) = false).
Proof. vm_compute. repeat split; reflexivity. Qed.

(* ===================================================================== *)
(** * Further properties of the provider *)
(* ===================================================================== *)

(** ** Effects a program can perform *)

Section AllEvents.

Variable P : Event -> Prop.

Lemma allEvents_bind (A B : Type) (p : Prog A) (f : A -> Prog B) :
  allEvents P p -> (forall a, allEvents P (f a)) -> allEvents P (bindProg p f).
Proof.
  intros Hp Hf.
  induction p as [a | e | a k IH | req k IH | k IH]; simpl in *.
  - apply Hf.
  - exact I.
  - destruct Hp as [Ha Hk]. split; [exact Ha | exact (IH Hk)].
  - destruct Hp as [Hr Hk]. split; [exact Hr |].
    intros o. exact (IH o (Hk o)).
  - intros c. exact (IH c (Hp c)).
Qed.

(** The value bound from a synchronous computation is the one it
    returned. *)
Lemma allEvents_bind_lift (A B : Type) (x : JsError + A) (f : A -> Prog B) :
  (forall a, x = inr a -> allEvents P (f a)) ->
  allEvents P (bindProg (lift x) f).
Proof.
  intros Hf. destruct x as [e | a]; simpl; [exact I | exact (Hf a eq_refl)].
Qed.

Lemma allEvents_tryCatch (A : Type) (p : Prog A) (h : JsError -> Prog A) :
  allEvents P p -> (forall e, allEvents P (h e)) -> allEvents P (tryCatch p h).
Proof.
  intros Hp Hh.
  induction p as [a | e | a k IH | req k IH | k IH]; simpl in *.
  - exact I.
  - apply Hh.
  - destruct Hp as [Ha Hk]. split; [exact Ha | exact (IH Hk)].
  - destruct Hp as [Hr Hk]. split; [exact Hr |].
    intros o. exact (IH o (Hk o)).
  - intros c. exact (IH c (Hp c)).
Qed.

Lemma allEvents_lift (A : Type) (x : JsError + A) : allEvents P (lift x).
Proof. destruct x; exact I. Qed.

Lemma allEvents_fetch (req : Request) :
  P (Sent req) -> allEvents P (fetch req).
Proof. intros H. split; [exact H |]. intros [response | e]; exact I. Qed.

Lemma allEvents_act (a : Action) : P (Did a) -> allEvents P (act a).
Proof. intros H. split; [exact H | exact I]. Qed.

Lemma allEvents_addMessage (ro : Role) (c : JsVal) :
  (forall m, P (Did (UpdateMessages (Append m)))) ->
  allEvents P (addMessage ro c).
Proof. intros H k. split; [apply H | exact I]. Qed.

(** What holds of every effect the program can perform holds of every
    effect of each of its runs. *)
Lemma allEvents_run (A : Type) (p : Prog A) (w : World) :
  allEvents P p -> Forall P (events (run p w)).
Proof.
  revert w.
  induction p as [a | e | a k IH | req k IH | k IH]; intros w Hp; simpl in *.
  - constructor.
  - constructor.
  - destruct Hp as [Ha Hk]. constructor; [exact Ha | exact (IH _ Hk)].
  - destruct Hp as [Hr Hk]. constructor; [exact Hr | exact (IH _ _ (Hk _))].
  - exact (IH _ _ (Hp _)).
Qed.

End AllEvents.

Lemma allEvents_weaken (A : Type) (P Q : Event -> Prop) (p : Prog A) :
  (forall e, P e -> Q e) -> allEvents P p -> allEvents Q p.
Proof.
  intros HPQ.
  induction p as [a | e | a k IH | req k IH | k IH]; simpl.
  - trivial.
  - trivial.
  - intros [Ha Hk]. split; [exact (HPQ _ Ha) | exact (IH Hk)].
  - intros [Hr Hk]. split; [exact (HPQ _ Hr) |].
    intros o. exact (IH o (Hk o)).
  - intros Hk c. exact (IH c (Hk c)).
Qed.

(** ** Cells a program leaves alone *)

Section Frame.

Variable T : Type.
Variable cell : Store -> T.
Variable allowed : Action -> bool.

Hypothesis allowed_keeps :
  forall a s s', allowed a = true -> applyStore a s = inr s' -> cell s' = cell s.

Lemma perform_keeps (a : Action) (w : World) :
  allowed a = true -> cell (store (perform a w)) = cell (store w).
Proof.
  intros Ha. unfold perform. simpl.
  destruct (fault w); [reflexivity |].
  destruct (applyStore a (store w)) as [e | s'] eqn:Hs; [reflexivity |].
  exact (allowed_keeps a (store w) s' Ha Hs).
Qed.

(** A program all of whose actions are allowed leaves the cell as it
    found it. *)
Lemma frame_run (A : Type) (p : Prog A) (w : World) :
  allEvents (fun e => match e with
                      | Did a => allowed a = true
                      | Sent _ => True
                      end) p ->
  cell (store (final (run p w))) = cell (store w).
Proof.
  revert w.
  induction p as [a | e | a k IH | req k IH | k IH]; intros w Hp; simpl in *.
  - reflexivity.
  - reflexivity.
  - destruct Hp as [Ha Hk]. rewrite (IH _ Hk). exact (perform_keeps a w Ha).
  - destruct Hp as [_ Hk]. exact (IH _ _ (Hk _)).
  - exact (IH _ _ (Hp _)).
Qed.

End Frame.

(** ** Exceptions *)

Lemma safe_bind (A B : Type) (p : Prog A) (f : A -> Prog B) :
  safe p -> (forall a, safe (f a)) -> safe (bindProg p f).
Proof.
  intros Hp Hf.
  induction p as [a | e | a k IH | req k IH | k IH]; simpl in *.
  - apply Hf.
  - contradiction.
  - exact (IH Hp).
  - intros o. exact (IH o (Hp o)).
  - intros c. exact (IH c (Hp c)).
Qed.

(** A handler that cannot throw makes the whole [try] statement safe,
    whatever its block does. *)
Lemma safe_tryCatch (A : Type) (p : Prog A) (h : JsError -> Prog A) :
  (forall e, safe (h e)) -> safe (tryCatch p h).
Proof.
  intros Hh.
  induction p as [a | e | a k IH | req k IH | k IH]; simpl.
  - exact I.
  - apply Hh.
  - exact IH.
  - intros o. apply IH.
  - intros c. apply IH.
Qed.

Lemma safe_addMessage (ro : Role) (c : JsVal) : safe (addMessage ro c).
Proof. intros k. exact I. Qed.

Lemma safe_returns (A : Type) (p : Prog A) (w : World) :
  safe p -> exists a, result (run p w) = inr a.
Proof.
  revert w.
  induction p as [a | e | a k IH | req k IH | k IH]; intros w Hp; simpl in *.
  - exists a. reflexivity.
  - contradiction.
  - exact (IH _ Hp).
  - exact (IH _ _ (Hp _)).
  - exact (IH _ _ (Hp _)).
Qed.

Ltac safe_walk :=
  repeat first
    [ exact I
    | apply safe_addMessage
    | apply safe_tryCatch; intro
    | apply safe_bind; [| intro]
    | match goal with
      | |- safe (if ?b then _ else _) => destruct b
      | |- safe (match ?x with _ => _ end) => destruct x
      end ].

Lemma safe_checkConnection (r : Store) : safe (checkConnection r).
Proof. unfold checkConnection. safe_walk. Qed.

Lemma safe_newChat (r : Store) : safe (newChat r).
Proof. unfold newChat. safe_walk. Qed.

Lemma safe_awaitResponse (r : Store) (loadingId : unit) :
  safe (awaitResponse r loadingId).
Proof. unfold awaitResponse. safe_walk. Qed.

Lemma safe_dispatch (r : Store) (message : jsstring) (files : option (list JsVal)) :
  safe (dispatch r message files).
Proof. unfold dispatch. safe_walk. Qed.

Lemma safe_sendMessage (r : Store) (message : jsstring) (files : option (list JsVal)) :
  safe (sendMessage r message files).
Proof.
  unfold sendMessage. safe_walk;
    first [apply safe_newChat | apply safe_dispatch].
Qed.

(** X1. No operation of the provider lets an exception escape:
    [checkConnection], [newChat], [clearChat] and [sendMessage] return
    normally for every render, every argument and every behaviour of the
    network, so that the promises their callers await never reject. *)
Theorem provider_never_throws
  (r : Store) (message : jsstring) (files : option (list JsVal)) (w : World) :
  result (run (checkConnection r) w) = inr tt
  /\ result (run (newChat r) w) = inr tt
  /\ result (run clearChat w) = inr tt
  /\ result (run (sendMessage r message files) w) = inr tt.
Proof.
  assert (Hunit : forall (p : Prog unit), safe p -> result (run p w) = inr tt).
  { intros p Hp. destruct (safe_returns unit p w Hp) as [[] H]. exact H. }
  split; [apply Hunit, safe_checkConnection |].
  split; [apply Hunit, safe_newChat |].
  split; [reflexivity |].
  apply Hunit, safe_sendMessage.
Qed.

(** ** Who writes which cell *)

Lemma probeAction_keeps (a : Action) (s s' : Store) :
  probeAction a = true -> applyStore a s = inr s' ->
  sessionCells s' = sessionCells s.
Proof.
  destruct a; simpl; try discriminate; intros _ H; injection H as <-;
    reflexivity.
Qed.

Lemma sessionAction_keeps (a : Action) (s s' : Store) :
  sessionAction a = true -> applyStore a s = inr s' ->
  probeCells s' = probeCells s.
Proof.
  destruct a; simpl; try discriminate; intros _ H;
    try (injection H as <-; reflexivity).
  destruct (applyUpdater u (messages s)); [discriminate |].
  injection H as <-. reflexivity.
Qed.

(** Walks through a program of the provider, leaving the conditions on
    single effects as goals. *)
Ltac events_walk :=
  repeat first
    [ exact I
    | apply allEvents_lift
    | apply allEvents_bind_lift; intros ? ?
    | apply allEvents_fetch
    | apply allEvents_addMessage; intro
    | apply allEvents_bind; [| intro]
    | apply allEvents_tryCatch; [| intro]
    | apply allEvents_act
    | match goal with
      | |- allEvents _ (if ?b then _ else _) => destruct b
      | |- allEvents _ (match ?x with _ => _ end) => destruct x
      | |- _ /\ _ => split
      end ].

Lemma checkConnection_acts (r : Store) :
  allEvents (fun e => match e with
                      | Did a => probeAction a = true
                      | Sent req => method req = GET /\ body req = None
                      end) (checkConnection r).
Proof. unfold checkConnection. events_walk; reflexivity. Qed.

(** X2. A probe never touches the session: for every render and every
    behaviour of the network, [checkConnection] leaves the configuration,
    the log, the chat id and the busy flag as they were; its only setter
    calls are [setIsConnected] and [setConnectionStatus], and the requests
    it issues are GET requests without a body. *)
Theorem checkConnection_keeps_session (r : Store) (w : World) :
  let o := run (checkConnection r) w in
  sessionCells (store (final o)) = sessionCells (store w)
  /\ Forall (fun e => match e with
                      | Did a => probeAction a = true
                      | Sent req => method req = GET /\ body req = None
                      end) (events o).
Proof.
  split.
  - apply (frame_run _ sessionCells probeAction probeAction_keeps).
    eapply allEvents_weaken; [| apply checkConnection_acts].
    intros [a | req] H; [exact H | exact I].
  - apply allEvents_run, checkConnection_acts.
Qed.

Lemma sendMessage_acts
  (r : Store) (message : jsstring) (files : option (list JsVal)) :
  allEvents (fun e => match e with
                      | Did a => sessionAction a = true
                      | Sent _ => True
                      end) (sendMessage r message files).
Proof.
  unfold sendMessage, newChat, dispatch, awaitResponse.
  events_walk; reflexivity.
Qed.

Lemma newChat_acts (r : Store) :
  allEvents (fun e => match e with
                      | Did a => sessionAction a = true
                      | Sent _ => True
                      end) (newChat r).
Proof. unfold newChat. events_walk; reflexivity. Qed.

(** X3. Connectivity changes only through a probe: for every render,
    every argument and every behaviour of the network, [sendMessage],
    [newChat] and [clearChat] leave [isConnected], the status label and
    the configuration as they were, whatever happens to their requests. *)
Theorem session_operations_keep_connectivity
  (r : Store) (message : jsstring) (files : option (list JsVal)) (w : World) :
  probeCells (store (final (run (sendMessage r message files) w)))
  = probeCells (store w)
  /\ probeCells (store (final (run (newChat r) w))) = probeCells (store w)
  /\ probeCells (store (final (run clearChat w))) = probeCells (store w).
Proof.
  split; [| split].
  - apply (frame_run _ probeCells sessionAction sessionAction_keeps).
    apply sendMessage_acts.
  - apply (frame_run _ probeCells sessionAction sessionAction_keeps).
    apply newChat_acts.
  - apply (frame_run _ probeCells sessionAction sessionAction_keeps).
    unfold clearChat. events_walk; reflexivity.
Qed.

Lemma checkConnection_addressed (r : Store) :
  allEvents (wellAddressed r) (checkConnection r).
Proof. unfold checkConnection. events_walk;
    simpl; first [exact I | split; [assumption | reflexivity]]. Qed.

Lemma newChat_addressed (r : Store) : allEvents (wellAddressed r) (newChat r).
Proof. unfold newChat. events_walk;
    simpl; first [exact I | split; [assumption | reflexivity]]. Qed.

Lemma sendMessage_addressed
  (r : Store) (message : jsstring) (files : option (list JsVal)) :
  allEvents (wellAddressed r) (sendMessage r message files).
Proof.
  unfold sendMessage, newChat, dispatch, awaitResponse.
  events_walk;
    simpl; first [exact I | split; [assumption | reflexivity]].
Qed.

(** X4. Every request the provider issues goes to the sanitized base URL
    of the calling render and runs under the abort timer of its endpoint
    (5 s for the two health checks, 10 s for a new chat and for the
    message list, 30 s for a send).  In particular no request is issued
    from a render whose configuration is unusable. *)
Theorem requests_well_addressed
  (r : Store) (message : jsstring) (files : option (list JsVal)) (w : World) :
  Forall (wellAddressed r) (events (run (checkConnection r) w))
  /\ Forall (wellAddressed r) (events (run (newChat r) w))
  /\ Forall (wellAddressed r) (events (run (sendMessage r message files) w))
  /\ (forall e, getBaseUrl (config r) = inl e ->
      requests (events (run (checkConnection r) w)) = []
      /\ requests (events (run (newChat r) w)) = []
      /\ requests (events (run (sendMessage r message files) w)) = []).
Proof.
  assert (Hnone : forall t e, getBaseUrl (config r) = inl e ->
                    Forall (wellAddressed r) t -> requests t = []).
  { intros t e He Ht. induction Ht as [| x t Hx Ht IH]; [reflexivity |].
    destruct x as [a | req]; simpl; [exact IH |].
    destruct Hx as [Hx _]. rewrite He in Hx. discriminate. }
  pose proof (allEvents_run _ _ _ w (checkConnection_addressed r)) as H1.
  pose proof (allEvents_run _ _ _ w (newChat_addressed r)) as H2.
  pose proof (allEvents_run _ _ _ w (sendMessage_addressed r message files)) as H3.
  split; [exact H1 |]. split; [exact H2 |]. split; [exact H3 |].
  intros e He. repeat split; eapply Hnone; eassumption.
Qed.

(** ** The base URL *)



(** ** Probes that fail early *)

(** X6. A probe whose transport check does not succeed ends
    disconnected and never asks for the agent's health: with an unusable
    configuration it issues no request at all; when the transport check is
    rejected (abort timer, transport error) or answered outside 2xx, that
    check is its only request.  Either way [isConnected] is false and the
    label is "Disconnected". *)
Theorem checkConnection_transport_failure (r : Store) (w : World) :
  fault w = None ->
  match getBaseUrl (config r) with
  | inl _ => True
  | inr _ => refused (replies w (fetched w)) = true
  end ->
  let o := run (checkConnection r) w in
  isConnected (store (final o)) = false
  /\ connectionStatus (store (final o)) = js "Disconnected"
  /\ map path (requests (events o)) =
     match getBaseUrl (config r) with
     | inl _ => []
     | inr _ => [ApiHealth]
     end.
Proof.
  intros Hf Hfail. unfold checkConnection. simpl.
  destruct (getBaseUrl (config r)) as [e | url]; simpl.
  - destruct (eqb (ename e) (js "AbortError")); simpl; rewrite Hf; simpl;
      repeat split; reflexivity.
  - destruct (replies w (fetched w)) as [response | e]; simpl in *.
    + destruct (ok response); [discriminate |]. simpl. rewrite Hf. simpl.
      repeat split; reflexivity.
    + destruct (eqb (ename e) (js "AbortError")); simpl; rewrite Hf; simpl;
        repeat split; reflexivity.
Qed.

Lemma checkConnection_transport_failure_witness :
  let o :=
    run (checkConnection freshStore)
        (scripted freshStore [Resolved (mkResponse false (inr (VObj [])))]) in
  isConnected (store (final o)) = false
  /\ connectionStatus (store (final o)) = js "Disconnected"
  /\ map path (requests (events o)) = [ApiHealth].
Proof.
  exact (checkConnection_transport_failure freshStore
           (scripted freshStore [Resolved (mkResponse false (inr (VObj [])))])
           eq_refl eq_refl).
Defined.

(** ** Creating and clearing *)

(** X7. When the new-chat request is answered with 2xx and a body that
    parses to anything but [null], [newChat] sets the chat id to the
    body's [chat_id] (to [undefined] when the body has none), discards the
    whole previous log and leaves exactly one message in it, the [system]
    notice "New conversation started!"; it issues that one POST request
    and nothing else changes. *)
Theorem newChat_success
  (r : Store) (w : World) (url : jsstring) (response : Response)
  (data chat_id : JsVal) :
  fault w = None ->
  getBaseUrl (config r) = inr url ->
  replies w (fetched w) = Resolved response ->
  ok response = true ->
  json response = inr data ->
  get data (js "chat_id") = inr chat_id ->
  let o := run (newChat r) w in
  store (final o) =
  mkStore (config (store w)) (isConnected (store w))
          (connectionStatus (store w))
          [stampedMessage w 0 system (VStr (js "New conversation started!"))]
          chat_id (isLoading (store w))
  /\ fault (final o) = None
  /\ requests (events o) = [mkRequest url ApiChatNew POST 10000 None].
Proof.
  intros Hf Hurl Hreply Hok Hjson Hid. unfold newChat. simpl.
  rewrite Hurl. simpl. rewrite Hreply. simpl. rewrite Hok. simpl.
  rewrite Hjson. simpl. rewrite Hid. simpl. rewrite Hf. simpl.
  repeat split; reflexivity.
Qed.

Lemma newChat_success_witness :
  let w := scripted noSessionStore [ok200 (VObj [(js "chat_id", VStr (js "c7"))])] in
  let o := run (newChat noSessionStore) w in
  currentChatId (store (final o)) = VStr (js "c7")
  /\ shown (messages (store (final o))) =
     [(system, VStr (js "New conversation started!"))].
Proof.
  intros w o.
  destruct (newChat_success noSessionStore w (js "http://10.0.0.5:5000")
              (mkResponse true (inr (VObj [(js "chat_id", VStr (js "c7"))])))
              (VObj [(js "chat_id", VStr (js "c7"))]) (VStr (js "c7"))
              eq_refl eq_refl eq_refl eq_refl eq_refl eq_refl) as (Hs & _).
  subst o. rewrite Hs. split; reflexivity.
Defined.

(** X8. [newChat] is all or nothing: whatever the network does, it
    either leaves every cell as it was (and alerts "Failed to start new
    chat"), or it replaces the chat id and the log together, the log by
    the single notice.  The log is never cleared without a new chat id
    being set, and the chat id never changes under an old log. *)
Theorem newChat_all_or_nothing (r : Store) (w : World) :
  fault w = None ->
  let o := run (newChat r) w in
  (store (final o) = store w
   /\ In (Did (Alert (js "Error") (js "Failed to start new chat"))) (events o))
  \/ (exists chat_id,
        store (final o) =
        mkStore (config (store w)) (isConnected (store w))
                (connectionStatus (store w))
                [stampedMessage w 0 system
                   (VStr (js "New conversation started!"))]
                chat_id (isLoading (store w))).
Proof.
  intros Hf. unfold newChat. simpl.
  destruct (getBaseUrl (config r)) as [e | url]; simpl.
  { left. rewrite Hf. simpl. split; [destruct (store w); reflexivity |].
    right. left. reflexivity. }
  destruct (replies w (fetched w)) as [response | e]; simpl.
  2: { left. rewrite Hf. simpl. split; [destruct (store w); reflexivity |].
       right. right. left. reflexivity. }
  destruct (ok response); simpl.
  2: { left. rewrite Hf. simpl. split; [destruct (store w); reflexivity |].
       right. right. left. reflexivity. }
  destruct (json response) as [e | data]; simpl.
  { left. rewrite Hf. simpl. split; [destruct (store w); reflexivity |].
    right. right. left. reflexivity. }
  destruct (get data (js "chat_id")) as [e | chat_id]; simpl.
  { left. rewrite Hf. simpl. split; [destruct (store w); reflexivity |].
    right. right. left. reflexivity. }
  right. exists chat_id. rewrite Hf. reflexivity.
Qed.

Lemma newChat_all_or_nothing_witness :
  let w := scripted chatStore [ok200 VNull] in
  let o := run (newChat chatStore) w in
  store (final o) = chatStore
  \/ exists chat_id,
       store (final o) =
       mkStore lanConfig true (js "Connected to Suna")
               [stampedMessage w 0 system (VStr (js "New conversation started!"))]
               chat_id false.
Proof.
  intros w o.
  destruct (newChat_all_or_nothing chatStore w eq_refl) as [[Hs _] | Hs].
  - left. exact Hs.
  - right. exact Hs.
Defined.

(** ** Dispatches that fail *)

(** X9. When the send request is rejected or answered outside 2xx,
    [sendMessage] appends exactly one [error] message right behind the
    user's message, clears the busy flag and issues no further request.
    The text tells the causes apart: "Request timed out" after an abort,
    "Failed to send message" after any other rejection, the body's [error]
    entry when the refusal carries a truthy one, "Server error" when the
    body does not parse, and "Failed to send message" otherwise. *)
Theorem sendMessage_send_not_accepted
  (r : Store) (message : jsstring) (files : option (list JsVal)) (w : World)
  (url : jsstring) :
  isConnected r = true ->
  accepted message = true ->
  fault w = None ->
  getBaseUrl (config r) = inr url ->
  let s := run (sessionStep r) w in
  let reply := replies (final s) (fetched (final s)) in
  refused reply = true ->
  let o := run (sendMessage r message files) w in
  messages (store (final o)) =
  messages (store (final s))
  ++ [userEcho (final s) message;
      stampedMessage (final s) 1 error (sendFailureText reply)]
  /\ isLoading (store (final o)) = false
  /\ requests (events o) =
     requests (events s) ++ [sendRequest r url message files].
Proof.
  intros Hc Ha Hf Hurl s reply Hrefused o. subst o.
  rewrite (run_sendMessage_accepted r message files w Hc Ha).
  cbn [final events]. fold s.
  destruct (sessionStep_returns r w) as [_ Halive].
  specialize (Halive Hf). fold s in Halive.
  assert (Hreq : forall t u, requests (t ++ u) = requests t ++ requests u).
  { induction t as [| [a | req] t IH]; intros u; simpl;
      [reflexivity | apply IH | rewrite IH; reflexivity]. }
  rewrite Hreq. unfold dispatch. simpl. rewrite Hurl. simpl.
  subst reply. unfold sendFailureText, stampedMessage, userEcho.
  destruct (replies (final s) (fetched (final s))) as [response | e];
    simpl in *.
  - destruct (ok response); [discriminate |]. simpl.
    destruct (json response) as [e | data]; simpl.
    + rewrite Halive. simpl. rewrite <- app_assoc. repeat split; reflexivity.
    + destruct (get data (js "error")) as [e | text] eqn:Hget; simpl.
      * assert (Hname : eqb (ename e) (js "AbortError") = false).
        { destruct data; simpl in Hget; try discriminate;
            injection Hget as <-; reflexivity. }
        rewrite Hname. simpl. rewrite Halive. simpl. rewrite <- app_assoc.
        repeat split; reflexivity.
      * rewrite Halive. simpl. rewrite <- app_assoc.
        repeat split; reflexivity.
  - destruct (eqb (ename e) (js "AbortError")); simpl; rewrite Halive; simpl;
      rewrite <- app_assoc; repeat split; reflexivity.
Qed.

Lemma sendMessage_send_not_accepted_witness :
  let w :=
    scripted chatStore
      [Resolved (mkResponse false
                   (inr (VObj [(js "error", VStr (js "Chat not found"))])))] in
  let o := run (sendMessage chatStore (js "hi") None) w in
  shown (messages (store (final o))) =
  [(user, VStr (js "hi")); (error, VStr (js "Chat not found"))]
  /\ isLoading (store (final o)) = false.
Proof.
  intros w o.
  destruct (sendMessage_send_not_accepted chatStore (js "hi") None w
              (js "http://10.0.0.5:5000") eq_refl eq_refl eq_refl eq_refl
              eq_refl) as (Hlog & Hbusy & _).
  subst o. rewrite Hlog. split; [reflexivity | exact Hbusy].
Defined.

(** X10. When the send was accepted and the fetch of the message list
    then fails before its body is read (aborted by its timer, rejected by
    the transport, or answered with a body that does not parse), the
    dispatch ends with one [error] message behind the placeholder, "Response
    timed out" after an abort and "Failed to get response" otherwise, with
    the busy flag cleared, after exactly the send request and the fetch. *)
Theorem sendMessage_fetch_fails
  (r : Store) (message : jsstring) (files : option (list JsVal)) (w : World)
  (url : jsstring) (response : Response) (e : JsError) :
  isConnected r = true ->
  accepted message = true ->
  fault w = None ->
  getBaseUrl (config r) = inr url ->
  let s := run (sessionStep r) w in
  replies (final s) (fetched (final s)) = Resolved response ->
  ok response = true ->
  fetchFault (replies (final s) (S (fetched (final s)))) = Some e ->
  let o := run (sendMessage r message files) w in
  messages (store (final o)) =
  messages (store (final s))
  ++ [userEcho (final s) message;
      placeholderOf (final s);
      stampedMessage (final s) 2 error
        (VStr (if eqb (ename e) (js "AbortError")
               then js "Response timed out"
               else js "Failed to get response"))]
  /\ isLoading (store (final o)) = false
  /\ fault (final o) = None
  /\ requests (events o) =
     requests (events s)
     ++ [sendRequest r url message files;
         mkRequest url (ApiChatMessages (currentChatId r)) GET 10000 None].
Proof.
  intros Hc Ha Hf Hurl s Hreply Hok Hfault o. subst o.
  rewrite (run_sendMessage_accepted r message files w Hc Ha).
  cbn [final events]. fold s.
  destruct (sessionStep_returns r w) as [_ Halive].
  specialize (Halive Hf). fold s in Halive.
  assert (Hreq : forall t u, requests (t ++ u) = requests t ++ requests u).
  { induction t as [| [a | req] t IH]; intros u; simpl;
      [reflexivity | apply IH | rewrite IH; reflexivity]. }
  rewrite Hreq.
  rewrite (run_dispatch_accepted r message files (final s) url response
             Hurl Hreply Hok).
  cbn [final events]. unfold awaitResponse. simpl. rewrite Hurl. simpl.
  unfold fetchFault in Hfault. unfold stampedMessage, userEcho, placeholderOf.
  destruct (replies (final s) (S (fetched (final s)))) as [answer | e'];
    simpl in *.
  - destruct (json answer) as [e' | data]; [| discriminate].
    injection Hfault as ->. simpl.
    destruct (eqb (ename e) (js "AbortError")); simpl; rewrite Halive; simpl;
      rewrite <- !app_assoc; repeat split; reflexivity.
  - injection Hfault as ->.
    destruct (eqb (ename e) (js "AbortError")); simpl; rewrite Halive; simpl;
      rewrite <- !app_assoc; repeat split; reflexivity.
Qed.

Lemma sendMessage_fetch_fails_witness :
  let w := scripted chatStore [sendAccepted; Rejected AbortError] in
  let o := run (sendMessage chatStore (js "hi") None) w in
  shown (messages (store (final o))) =
  [(user, VStr (js "hi")); (system, VStr (js "Suna is thinking..."));
   (error, VStr (js "Response timed out"))]
  /\ isLoading (store (final o)) = false.
Proof.
  intros w o.
  destruct (sendMessage_fetch_fails chatStore (js "hi") None w
              (js "http://10.0.0.5:5000") (mkResponse true (inr (VObj [])))
              AbortError eq_refl eq_refl eq_refl eq_refl eq_refl eq_refl
              eq_refl) as (Hlog & Hbusy & _).
  subst o. rewrite Hlog. split; [reflexivity | exact Hbusy].
Defined.

(** ** The busy flag *)

Lemma perform_SetIsLoading (b : bool) (w : World) :
  fault (perform (SetIsLoading b) w) = None ->
  isLoading (store (perform (SetIsLoading b) w)) = b.
Proof.
  unfold perform. simpl. destruct (fault w); [discriminate | reflexivity].
Qed.

(** X11. No dispatch leaves the busy flag stuck while the provider is
    alive: for every call to [sendMessage] that passes its checks and for
    every behaviour of the network, if the provider has not failed by the
    end of the dispatch then [isLoading] is false. *)
Theorem sendMessage_clears_busy
  (r : Store) (message : jsstring) (files : option (list JsVal)) (w : World) :
  isConnected r = true ->
  accepted message = true ->
  let o := run (sendMessage r message files) w in
  fault (final o) = None ->
  isLoading (store (final o)) = false.
Proof.
  intros Hc Ha o. subst o.
  rewrite (run_sendMessage_accepted r message files w Hc Ha).
  cbn [final].
  generalize (final (run (sessionStep r) w)). intros w1.
  unfold dispatch, awaitResponse. cbn -[perform].
  repeat match goal with
         | |- context [lift ?x] => destruct x; cbn -[perform]
         | |- context [match replies ?w ?n with _ => _ end] =>
             destruct (replies w n); cbn -[perform]
         | |- context [if ok ?x then _ else _] =>
             destruct (ok x); cbn -[perform]
         | |- context [if eqb ?x ?y then _ else _] =>
             destruct (eqb x y); cbn -[perform]
         | |- context [if truthy ?x then _ else _] =>
             destruct (truthy x); cbn -[perform]
         | |- context [if strictEq ?x ?y then _ else _] =>
             destruct (strictEq x y); cbn -[perform]
         end;
    apply perform_SetIsLoading.
Qed.

Lemma sendMessage_clears_busy_witness :
  let o :=
    run (sendMessage chatStore (js "hi") None)
        (scripted chatStore [networkDown]) in
  isLoading (store (final o)) = false.
Proof.
  exact (sendMessage_clears_busy chatStore (js "hi") None
           (scripted chatStore [networkDown]) eq_refl eq_refl eq_refl).
Defined.

(** ** The send button *)

Lemma trimStart_head (s t : jsstring) (c : N) :
  trimStart s = c :: t -> isSpace c = false.
Proof.
  induction s as [| x s IH]; simpl; [discriminate |].
  destruct (isSpace x) eqn:Hx; [exact IH |].
  intros H. injection H as <- _. exact Hx.
Qed.

Lemma trimEnd_head (c : N) (s : jsstring) :
  isSpace c = false -> exists t, trimEnd (c :: s) = c :: t.
Proof.
  intros Hc. simpl. destruct (trimEnd s) as [| x t].
  - rewrite Hc. exists []. reflexivity.
  - exists (x :: t). reflexivity.
Qed.

Lemma trimEnd_idem (s : jsstring) : trimEnd (trimEnd s) = trimEnd s.
Proof.
  induction s as [| c s IH]; simpl; [reflexivity |].
  destruct (trimEnd s) as [| x t] eqn:Ht.
  - destruct (isSpace c) eqn:Hc; simpl; [reflexivity |].
    rewrite Hc. reflexivity.
  - change (trimEnd (c :: x :: t)) with
      (match trimEnd (x :: t) with
       | [] => if isSpace c then [] else [c]
       | u => c :: u
       end).
    rewrite IH. reflexivity.
Qed.

(** Trimming a trimmed string changes nothing. *)
Lemma trim_idem (s : jsstring) : trim (trim s) = trim s.
Proof.
  unfold trim. destruct (trimStart s) as [| c t] eqn:Hs; [reflexivity |].
  pose proof (trimStart_head s t c Hs) as Hc.
  destruct (trimEnd_head c t Hc) as [u Hu].
  rewrite Hu. simpl trimStart. rewrite Hc. rewrite <- Hu.
  apply trimEnd_idem.
Qed.

(** X12. Behind the send button the checks of [handleSend] and of
    [sendMessage] for a blank message and for a missing connection can
    never fail.  A press does nothing when the button is disabled (blank
    input, busy or disconnected render); otherwise it clears the input
    field and, unless the trimmed text is longer than 10,000 code units,
    goes on to the session step and the dispatch of the trimmed text. *)
Theorem pressSend_reaches_dispatch (r : Store) (text : jsstring) :
  pressSend r text =
  if sendDisabled r text then Ret tt
  else
    Do (SetInputText [])
       (if (10000 <? len (trim text))%N
        then act (Alert (js "Error")
                        (js "Message too long (max 10,000 characters)"))
        else bindProg (sessionStep r)
                      (fun _ => dispatch r (trim text) None)).
Proof.
  unfold pressSend, sendDisabled, handleSend.
  destruct (falsy (trim text)) eqn:Hblank; [reflexivity |].
  destruct (isLoading r); [reflexivity |].
  destruct (isConnected r) eqn:Hc; [| reflexivity].
  simpl. unfold sendMessage. rewrite Hc, Hblank, trim_idem. simpl.
  assert (Hlen : (len (trim text) =? 0)%N = false).
  { destruct (trim text); [discriminate | reflexivity]. }
  rewrite Hlen. simpl. reflexivity.
Qed.

(** ** What a probe decides *)

(** X13. Every completed probe ends in exactly one of three states:
    disconnected with the label "Disconnected", or connected with the
    label "Mobile connected, Suna offline" or "Connected to Suna".  The
    labels "Checking...", "Connecting..." and "Connected" never outlast a
    probe, and [isConnected] is false exactly under "Disconnected". *)
Theorem checkConnection_three_states (r : Store) (w : World) :
  fault w = None ->
  let s := store (final (run (checkConnection r) w)) in
  (isConnected s = false /\ connectionStatus s = js "Disconnected")
  \/ (isConnected s = true
      /\ connectionStatus s = js "Mobile connected, Suna offline")
  \/ (isConnected s = true /\ connectionStatus s = js "Connected to Suna").
Proof.
  intros Hf. unfold checkConnection. simpl.
  repeat match goal with
         | |- context [lift ?x] => destruct x; simpl
         | |- context [match replies ?w ?n with _ => _ end] =>
             destruct (replies w n); simpl
         | |- context [if ok ?x then _ else _] => destruct (ok x); simpl
         | |- context [if eqb ?x ?y then _ else _] => destruct (eqb x y); simpl
         | |- context [if strictEq ?x ?y then _ else _] =>
             destruct (strictEq x y); simpl
         end;
    rewrite Hf; simpl;
    first [ left; split; reflexivity
          | right; left; split; reflexivity
          | right; right; split; reflexivity ].
Qed.

Lemma checkConnection_three_states_witness :
  let s :=
    store (final (run (checkConnection freshStore)
                      (scripted freshStore [ok200 (VObj []); ok200 (VObj [])]))) in
  isConnected s = true
  /\ connectionStatus s = js "Mobile connected, Suna offline".
Proof.
  intros s.
  destruct (checkConnection_three_states freshStore
              (scripted freshStore [ok200 (VObj []); ok200 (VObj [])]) eq_refl)
    as [[H _] | [H | [_ H]]].
  - discriminate H.
  - exact H.
  - discriminate H.
Defined.



(** ** Chat ids *)

Lemma sendMessage_chatAddressed
  (r : Store) (message : jsstring) (files : option (list JsVal)) :
  allEvents (chatAddressed r) (sendMessage r message files).
Proof.
  unfold sendMessage, newChat, dispatch, awaitResponse.
  events_walk; simpl; first [exact I | reflexivity].
Qed.

(** X15. The send request and the fetch of the message list of a
    dispatch are addressed to the chat id of the render that called
    [sendMessage].  This also holds when the session step of the same call
    has just created a session: the new id is stored for later renders,
    while this dispatch still uses the id it was called with. *)
Theorem sendMessage_uses_render_chat_id
  (r : Store) (message : jsstring) (files : option (list JsVal)) (w : World) :
  Forall (chatAddressed r) (events (run (sendMessage r message files) w)).
Proof. apply allEvents_run, sendMessage_chatAddressed. Qed.

(** ** The base URL across the screens *)

(** X16. The provider's base URL is the earlier provider's URL of the
    sanitized configuration, and [StatusScreen] asks for the agent's
    health at the earlier provider's URL of the raw configuration.  So the
    three agree exactly on configurations that are already clean: for a
    clean, non-empty host and port, [getBaseUrl] returns the interpolated
    URL unchanged and the agent-health URL of [StatusScreen] is that URL
    followed by "/api/suna/health". *)
Theorem base_urls_agree (config : SunaConfig) :
  (forall url, getBaseUrl config = inr url ->
               url = Draft.getBaseUrl (sanitized config))
  /\ sunaHealthUrl config = Draft.getBaseUrl config ++ js "/api/suna/health"
  /\ (cleanHost (serverUrl config) = serverUrl config ->
      cleanPortOf (mobilePort config) = mobilePort config ->
      serverUrl config <> [] ->
      mobilePort config <> [] ->
      getBaseUrl config = inr (Draft.getBaseUrl config)).
Proof.
  split; [| split].
  - unfold getBaseUrl, Draft.getBaseUrl, sanitized. simpl.
    destruct (falsy (cleanHost (serverUrl config))
              || falsy (cleanPortOf (mobilePort config))); [discriminate |].
    intros url H. injection H as <-. reflexivity.
  - unfold sunaHealthUrl, Draft.getBaseUrl.
    rewrite <- !app_assoc. reflexivity.
  - intros Hh Hp Hne1 Hne2. unfold getBaseUrl, Draft.getBaseUrl.
    rewrite Hh, Hp.
    destruct (serverUrl config); [contradiction |].
    destruct (mobilePort config); [contradiction |].
    reflexivity.
Qed.

Lemma base_urls_agree_witness :
  getBaseUrl lanConfig = inr (Draft.getBaseUrl lanConfig)
  /\ sunaHealthUrl lanConfig = js "http://10.0.0.5:5000/api/suna/health".
Proof.
  destruct (base_urls_agree lanConfig) as (_ & Hs & Hc).
  split.
  - apply Hc; [reflexivity | reflexivity | discriminate | discriminate].
  - rewrite Hs. reflexivity.
Defined.

(** ** The services of the status screen *)

(** X17. For the four services of the status screen, [checkAllServices]
    never fails and never leaves a status unknown.  The mobile interface
    mirrors [isConnected]; the backend is online exactly when the
    agent-health body has the status "connected", the web interface
    exactly when its request is answered with 2xx; a rejected request or a
    body that cannot be read marks only its own service offline; the
    Docker entry always repeats the backend's status.  Names, descriptions
    and ports are kept. *)
Theorem checkAllServices_statuses
  (r : Store) (services : list ServiceStatus) (suna web : FetchOutcome) :
  List.length services = 4 ->
  exists updated,
    checkAllServices r services suna web = inr updated
    /\ map status updated =
       [if isConnected r then online else offline;
        match sunaBackendStatus suna with inr st => st | inl _ => offline end;
        match webInterfaceStatus web with inr st => st | inl _ => offline end;
        match sunaBackendStatus suna with inr st => st | inl _ => offline end]
    /\ Forall (fun st => st <> unknown) (map status updated)
    /\ map name updated = map name services
    /\ map description updated = map description services
    /\ map port updated = map port services.
Proof.
  intros Hlen.
  destruct services as [| s0 [| s1 [| s2 [| s3 [| s4 rest]]]]];
    try discriminate.
  unfold checkAllServices, setOrOffline. simpl.
  assert (Hsuna : match sunaBackendStatus suna with
                  | inr st => st | inl _ => offline end <> unknown).
  { unfold sunaBackendStatus. destruct suna as [response | e]; [| discriminate].
    destruct (json response) as [e | data]; [discriminate |].
    destruct (get data (js "status")) as [e | v]; [discriminate |].
    destruct (strictEq v (js "connected")); discriminate. }
  assert (Hweb : match webInterfaceStatus web with
                 | inr st => st | inl _ => offline end <> unknown).
  { unfold webInterfaceStatus. destruct web as [response | e]; [| discriminate].
    destruct (ok response); discriminate. }
  destruct (sunaBackendStatus suna) as [e1 | st1];
    destruct (webInterfaceStatus web) as [e2 | st2]; simpl;
    (eexists; split; [reflexivity |]; simpl;
     split; [reflexivity |];
     split; [| repeat split; reflexivity];
     repeat constructor; try assumption;
     destruct (isConnected r); discriminate).
Qed.

Lemma checkAllServices_statuses_witness :
  exists updated,
    checkAllServices chatStore (initialServices lanConfig)
                     (Rejected AbortError) (ok200 (VObj [])) = inr updated
    /\ map status updated = [online; offline; online; offline].
Proof.
  destruct (checkAllServices_statuses chatStore (initialServices lanConfig)
              (Rejected AbortError) (ok200 (VObj [])) eq_refl)
    as (updated & Hrun & Hst & _).
  exists updated. split; [exact Hrun | exact Hst].
Defined.

(** ** The requests of one call *)

Lemma requests_app (t u : list Event) :
  requests (t ++ u) = requests t ++ requests u.
Proof.
  induction t as [| [a | req] t IH]; simpl;
    [reflexivity | exact IH | rewrite IH; reflexivity].
Qed.

Lemma newChat_requests (r : Store) (w : World) :
  map path (requests (events (run (newChat r) w))) = []
  \/ map path (requests (events (run (newChat r) w))) = [ApiChatNew].
Proof.
  unfold newChat. simpl.
  repeat match goal with
         | |- context [lift ?x] => destruct x; simpl
         | |- context [match replies ?w ?n with _ => _ end] =>
             destruct (replies w n); simpl
         | |- context [if ok ?x then _ else _] => destruct (ok x); simpl
         end;
    first [left; reflexivity | right; reflexivity].
Qed.

Lemma dispatch_requests
  (r : Store) (message : jsstring) (files : option (list JsVal)) (w : World) :
  let paths := map path (requests (events (run (dispatch r message files) w))) in
  paths = []
  \/ paths = [ApiChatSend (currentChatId r)]
  \/ (paths = [ApiChatSend (currentChatId r); ApiChatMessages (currentChatId r)]
      /\ exists response,
           replies w (fetched w) = Resolved response /\ ok response = true).
Proof.
  unfold dispatch, awaitResponse. simpl.
  destruct (getBaseUrl (config r)) as [e | url]; simpl.
  { destruct (eqb (ename e) (js "AbortError")); left; reflexivity. }
  destruct (replies w (fetched w)) as [response | e] eqn:Hreply; simpl.
  2: { destruct (eqb (ename e) (js "AbortError")); right; left; reflexivity. }
  destruct (ok response) eqn:Hok; simpl.
  - right. right. split; [| exists response; split; [reflexivity | exact Hok]].
    repeat match goal with
           | |- context [lift ?x] => destruct x; simpl
           | |- context [match replies ?w ?n with _ => _ end] =>
               destruct (replies w n); simpl
           | |- context [if eqb ?x ?y then _ else _] =>
               destruct (eqb x y); simpl
           | |- context [if truthy ?x then _ else _] =>
               destruct (truthy x); simpl
           | |- context [if strictEq ?x ?y then _ else _] =>
               destruct (strictEq x y); simpl
           end;
      reflexivity.
  - right. left.
    repeat match goal with
           | |- context [lift ?x] => destruct x; simpl
           | |- context [if eqb ?x ?y then _ else _] =>
               destruct (eqb x y); simpl
           end;
      reflexivity.
Qed.

(** X18. One call to [sendMessage] never sends twice and never polls
    without cause: its requests are, in this order, at most one request for
    a new chat, at most one send request, and at most one fetch of the
    message list, the fetch being issued only when the send request was
    issued and answered with 2xx.  A call that fails its connection or
    validation check issues none. *)
Theorem sendMessage_request_sequence
  (r : Store) (message : jsstring) (files : option (list JsVal)) (w : World) :
  let paths := map path (requests (events (run (sendMessage r message files) w))) in
  let s := final (run (sessionStep r) w) in
  exists session rest,
    paths = session ++ rest
    /\ (session = [] \/ session = [ApiChatNew])
    /\ (rest = []
        \/ rest = [ApiChatSend (currentChatId r)]
        \/ (rest = [ApiChatSend (currentChatId r);
                    ApiChatMessages (currentChatId r)]
            /\ exists response,
                 replies s (fetched s) = Resolved response
                 /\ ok response = true))
    /\ (isConnected r = false \/ accepted message = false -> paths = []).
Proof.
  destruct (isConnected r) eqn:Hc.
  2: { exists [], []. unfold sendMessage. rewrite Hc. simpl.
       repeat split; auto. }
  destruct (accepted message) eqn:Ha.
  - rewrite (run_sendMessage_accepted r message files w Hc Ha).
    cbn [events]. rewrite requests_app, map_app.
    exists (map path (requests (events (run (sessionStep r) w)))),
           (map path (requests (events (run (dispatch r message files)
                                           (final (run (sessionStep r) w)))))).
    split; [reflexivity |]. split; [| split].
    + unfold sessionStep. destruct (negb (truthy (currentChatId r)));
        [apply newChat_requests | left; reflexivity].
    + apply dispatch_requests.
    + intros [H | H]; discriminate.
  - exists [], []. unfold sendMessage, accepted in *. rewrite Hc. simpl.
    destruct (falsy message || false || (len (trim message) =? 0)%N);
      simpl in *.
    + repeat split; auto.
    + apply negb_false_iff in Ha. rewrite Ha. simpl. repeat split; auto.
Qed.
